(** * RapidRoute: route progression and signal-waypoint tracking

    A shallow embedding of the three simulation servers of the repository

    - [Control Panel/control_panel_server.py]   (module [ControlPanel]),
    - [VSC/control_panel_server.py]             (module [VSC]),
    - [Simulation Server/simulation_server.py]  (module [SimulationServer]),

    followed by the properties of the specification that were checked
    against them.  [Location Server/location_server.py] (the platform's
    geolocation, printed in degrees, minutes and seconds) takes no part in
    these properties and is not embedded.

    Conventions of the embedding.
    - A Python [float] is an IEEE binary64 number: Rocq's primitive [float].
    - A Python [dict] is an association list in insertion order
      ([Py.dict]); that its keys are pairwise distinct is stated as the
      hypothesis [NoDup (keys d)] where a property depends on it.  A Python
      [list] is a [list].
    - A Python [str] is a [string] of bytes; names are compared byte by
      byte, which is Python's ordering of the (ASCII) signal names.
    - A Python [int] that is a signal id is a [Z]; the route cursor, which
      starts at [0] and is only ever incremented, is a [nat].
    - The module-level globals of a server are the fields of [State]
      (per-route simulation state) and [Registry] (signal tables).
    - A handler that mutates globals is a function [State -> result A * State];
      an uncaught Python exception is [Raise], and the state returned with
      it is the state of the globals at the moment the exception escapes.
    - [print], the MQTT publish and Flask's [jsonify] do not touch the
      simulation state and are not modelled. *)

From Stdlib Require Import ZArith String Ascii List Floats Lia.
From stdpp Require Import base option list sorting numbers strings.
Import ListNotations.

Set Warnings "-inexact-float".
Local Open Scope Z_scope.

(* ===================================================================== *)
(** * Python primitives *)
(* ===================================================================== *)

Module Py.

(** Exceptions that the modelled code can let escape. *)
Inductive exn : Type :=
| KeyError
| IndexError.

Inductive result (A : Type) : Type :=
| Ok (a : A)
| Raise (e : exn).
Arguments Ok {A} a.
Arguments Raise {A} e.

(** ** Insertion-ordered dictionaries *)

Definition dict (K V : Type) : Type := list (K * V).

Definition keys {K V} (d : dict K V) : list K := map fst d.

(** [d.get(k)] *)
Fixpoint get `{EqDecision K} {V} (d : dict K V) (k : K) : option V :=
  match d with
  | [] => None
  | (k', v) :: d' => if decide (k = k') then Some v else get d' k
  end.

(** [d.get(k, dflt)] *)
Definition get_default `{EqDecision K} {V} (d : dict K V) (k : K) (dflt : V) : V :=
  match get d k with
  | Some v => v
  | None => dflt
  end.

(** [d[k]] *)
Definition getitem `{EqDecision K} {V} (d : dict K V) (k : K) : result V :=
  match get d k with
  | Some v => Ok v
  | None => Raise KeyError
  end.

(** [d[k] = v]: an existing key keeps its position, a new key goes last. *)
Fixpoint setitem `{EqDecision K} {V} (d : dict K V) (k : K) (v : V) : dict K V :=
  match d with
  | [] => [(k, v)]
  | (k', v') :: d' =>
      if decide (k = k') then (k, v) :: d' else (k', v') :: setitem d' k v
  end.

(** [{k: v for k, v in items}] *)
Definition dict_of_items `{EqDecision K} {V} (items : list (K * V)) : dict K V :=
  fold_left (fun d kv => setitem d (fst kv) (snd kv)) items [].

(** [enumerate(l)], counting from [start]. *)
Fixpoint enumerate_from {A} (start : Z) (l : list A) : list (Z * A) :=
  match l with
  | [] => []
  | x :: l' => (start, x) :: enumerate_from (start + 1) l'
  end.

Definition enumerate {A} (l : list A) : list (Z * A) := enumerate_from 0 l.

(** ** Sorting

    [sorted] and [list.sort] are stable and compare with [<] only.  For a
    comparison that is a strict weak order the stable sorted arrangement is
    unique; it is computed here by insertion, each element being placed
    after the elements that are smaller and before the first one that is
    not. *)

Fixpoint insert_by {A} (lt : A -> A -> bool) (x : A) (l : list A) : list A :=
  match l with
  | [] => [x]
  | y :: l' => if lt y x then y :: insert_by lt x l' else x :: y :: l'
  end.

Definition sort_by {A} (lt : A -> A -> bool) (l : list A) : list A :=
  fold_right (insert_by lt) [] l.

(** [sorted(names)] for a list of [str]. *)
Definition sorted (names : list string) : list string :=
  sort_by String.ltb names.

(** [l.sort(key=key)] for a key that is a [float]. *)
Definition sort_key {A} (key : A -> float) (l : list A) : list A :=
  sort_by (fun a b => PrimFloat.ltb (key a) (key b)) l.

(** ** Lists of names *)

(** [x in l] *)
Definition mem (x : string) (l : list string) : bool :=
  existsb (String.eqb x) l.

(** [l.remove(x)] for an [x] that is in [l]: drops the first [x]. *)
Fixpoint remove (x : string) (l : list string) : list string :=
  match l with
  | [] => []
  | y :: l' => if String.eqb x y then l' else y :: remove x l'
  end.

(** [if x in l: l.remove(x)] *)
Definition discard (x : string) (l : list string) : list string :=
  if mem x l then remove x l else l.

(** [list(dict.fromkeys(l))]: first occurrences, in order. *)
Fixpoint fromkeys_acc (seen : list string) (l : list string) : list string :=
  match l with
  | [] => []
  | x :: l' =>
      if mem x seen then fromkeys_acc seen l'
      else x :: fromkeys_acc (x :: seen) l'
  end.

Definition fromkeys (l : list string) : list string := fromkeys_acc [] l.

(** [next((s for s in l if s not in excluded), None)] *)
Fixpoint next_not_in (l excluded : list string) : option string :=
  match l with
  | [] => None
  | s :: l' => if mem s excluded then next_not_in l' excluded else Some s
  end.

(** [l[i]] for an index [i >= 0], and [l[-i]] for [i >= 1]. *)
Definition index {A} (l : list A) (i : nat) : result A :=
  match nth_error l i with
  | Some x => Ok x
  | None => Raise IndexError
  end.

Definition index_from_end {A} (l : list A) (i : nat) : result A :=
  index (rev l) (i - 1).

(** ** Formatting *)

Definition digit (d : Z) : ascii := ascii_of_nat (48 + Z.to_nat d).

(** The [width] low decimal digits of [k], most significant first, in front
    of [acc]. *)
Fixpoint digits_acc (width : nat) (k : Z) (acc : string) : string :=
  match width with
  | O => acc
  | S w => digits_acc w (k / 10) (String (digit (k mod 10)) acc)
  end.

(** [str(k)] of a non-negative integer: the decimal digits, most significant
    first.  A number [k] has at most [log2 k + 1] digits, which bounds the
    number of divisions. *)
Fixpoint str_acc (fuel : nat) (k : Z) (acc : string) : string :=
  let acc' := String (digit (k mod 10)) acc in
  match fuel with
  | O => acc'
  | S f => if k <? 10 then acc' else str_acc f (k / 10) acc'
  end.

Definition str_nonneg (k : Z) : string :=
  str_acc (Z.to_nat (Z.log2 k)) k EmptyString.

(** [f"{k}"] of an [int]. *)
Definition str_int (k : Z) : string :=
  if k <? 0 then String "-" (str_nonneg (- k)) else str_nonneg k.

(** The integer nearest to [m * 2^e * 10^6], ties to even: the digits that
    [%.6f] prints for the (exact) binary value [m * 2^e]. *)
Definition scaled_round (m : positive) (e : Z) : Z :=
  let n := Z.pos m * 1000000 in
  if 0 <=? e then n * 2 ^ e
  else
    let d := 2 ^ (- e) in
    let q := n / d in
    let r := n mod d in
    match 2 * r ?= d with
    | Lt => q
    | Gt => q + 1
    | Eq => if Z.even q then q else q + 1
    end.

(** [f"{x:.6f}"] *)
Definition format_6f (x : float) : string :=
  match Prim2SF x with
  | S754_nan => "nan"
  | S754_infinity s => if s then "-inf" else "inf"
  | S754_zero s => String.append (if s then "-" else "") "0.000000"
  | S754_finite s m e =>
      let k := scaled_round m e in
      String.append (if s then "-" else "")
        (String.append (str_nonneg (k / 1000000))
           (String "." (digits_acc 6 (k mod 1000000) EmptyString)))
  end%string.

(** [",".join(fields)] *)
Definition join_comma (fields : list string) : string := String.concat "," fields.

End Py.

Import Py.

(* ===================================================================== *)
(** * Data model *)
(* ===================================================================== *)

(** A coordinate [(lat, lon)]. *)
Definition coord : Type := float * float.

(** The signal tables: the globals [SIGNALS], [SIGNAL_NAME_TO_ID] and
    [SIGNAL_ID_TO_NAME]. *)
Record Registry : Type := mkRegistry {
  SIGNALS : dict string coord;
  SIGNAL_NAME_TO_ID : dict string Z;
  SIGNAL_ID_TO_NAME : dict Z string
}.

(** The state variables of the active route. *)
Record State : Type := mkState {
  route_points : list coord;
  route_signal_waypoints : list string;
  current_point_index : nat;
  previous_location : option coord;
  current_start_name : string;
  current_destination_name : string;
  signals_passed_on_current_route : list string
}.

(** The globals as the module initialises them. *)
Definition empty_registry : Registry := mkRegistry [] [] [].

Definition initial_state : State :=
  mkState [] [] 0%nat None EmptyString EmptyString [].

(** An entry of [PRECALCULATED_ROUTES]. *)
Record Route : Type := mkRoute {
  start : string;
  end_ : string;
  points : list coord;
  waypoints : list string
}.

(** What a Flask view returns: a JSON body (message, and the route when
    there is one) or a plain string, with the HTTP status. *)
Inductive response : Type :=
| Json (message : string) (route : option (list string)) (status : Z)
| Text (body : string) (status : Z).

(** ** Handlers: state and exceptions *)

Definition M (A : Type) : Type := State -> result A * State.

Definition ret {A} (a : A) : M A := fun st => (Ok a, st).

Definition raise {A} (e : exn) : M A := fun st => (Raise e, st).

Definition bind {A B} (c : M A) (k : A -> M B) : M B :=
  fun st =>
    match c st with
    | (Ok a, st') => k a st'
    | (Raise e, st') => (Raise e, st')
    end.

(** An expression that may raise, evaluated for its value. *)
Definition lift {A} (r : result A) : M A := fun st => (r, st).

Definition read {A} (field : State -> A) : M A := fun st => (Ok (field st), st).

Definition write (update : State -> State) : M unit := fun st => (Ok tt, update st).

Notation "x <- c ;; k" := (bind c (fun x => k))
  (at level 100, c at next level, right associativity).
Notation "c ;;; k" := (bind c (fun _ => k))
  (at level 100, right associativity).

(** Unfolds the steps of a handler. *)
Ltac run_handler :=
  unfold bind, read, write, lift, ret, raise; cbn beta iota.


(** Assignments to the globals. *)
Definition set_route_points (v : list coord) (st : State) : State :=
  mkState v (route_signal_waypoints st) (current_point_index st)
    (previous_location st) (current_start_name st)
    (current_destination_name st) (signals_passed_on_current_route st).

Definition set_route_signal_waypoints (v : list string) (st : State) : State :=
  mkState (route_points st) v (current_point_index st)
    (previous_location st) (current_start_name st)
    (current_destination_name st) (signals_passed_on_current_route st).

Definition set_current_point_index (v : nat) (st : State) : State :=
  mkState (route_points st) (route_signal_waypoints st) v
    (previous_location st) (current_start_name st)
    (current_destination_name st) (signals_passed_on_current_route st).

Definition set_previous_location (v : option coord) (st : State) : State :=
  mkState (route_points st) (route_signal_waypoints st) (current_point_index st)
    v (current_start_name st)
    (current_destination_name st) (signals_passed_on_current_route st).

Definition set_current_start_name (v : string) (st : State) : State :=
  mkState (route_points st) (route_signal_waypoints st) (current_point_index st)
    (previous_location st) v
    (current_destination_name st) (signals_passed_on_current_route st).

Definition set_current_destination_name (v : string) (st : State) : State :=
  mkState (route_points st) (route_signal_waypoints st) (current_point_index st)
    (previous_location st) (current_start_name st)
    v (signals_passed_on_current_route st).

Definition set_signals_passed (v : list string) (st : State) : State :=
  mkState (route_points st) (route_signal_waypoints st) (current_point_index st)
    (previous_location st) (current_start_name st)
    (current_destination_name st) v.

(** [while True: body], run for at most [fuel] iterations.  An iteration
    either returns ([Some]) or falls through to the next one ([None]).  The
    third component counts the iterations that were run; the first is [None]
    when the fuel ran out before the loop returned. *)
Fixpoint while_true {S A} (body : S -> option A * S) (fuel : nat) (s : S)
  : option A * S * nat :=
  match fuel with
  | O => (None, s, 0%nat)
  | Datatypes.S fuel' =>
      match body s with
      | (Some a, s') => (Some a, s', 1%nat)
      | (None, s') =>
          let '(r, s'', n) := while_true body fuel' s' in (r, s'', Datatypes.S n)
      end
  end.

(* ===================================================================== *)
(** * The code shared by the three servers *)
(* ===================================================================== *)

(** The functions of Python's [math] module and the float power operator
    that [haversine] calls.  They belong to the C library, not to the
    repository; the development holds for every implementation of them.
    [math.sqrt] is IEEE 754's square root; where Python raises
    [ValueError] (a negative argument) the primitive returns NaN. *)
Class PyMath : Type := {
  math_sin : float -> float;
  math_cos : float -> float;
  math_atan2 : float -> float -> float;
  float_pow : float -> float -> float
}.

(** [math.radians]: multiplication by [pi / 180]. *)
Definition math_radians (x : float) : float :=
  (x * (0x1.921fb54442d18p+1 / 180))%float.

Definition math_sqrt (x : float) : float := PrimFloat.sqrt x.

(** [setup_signal_data] ([load_signals_from_file] in the simulation server):
    the registry built from the literal [KNOWN_SIGNALS]. *)
Definition setup_signal_data (KNOWN_SIGNALS : dict string coord) : Registry :=
  let sorted_signal_names := sorted (keys KNOWN_SIGNALS) in
  let id_to_name :=
    dict_of_items
      (map (fun i_name => (fst i_name + 1, snd i_name))
         (enumerate sorted_signal_names)) in
  let name_to_id :=
    dict_of_items (map (fun i_name => (snd i_name, fst i_name)) id_to_name) in
  mkRegistry KNOWN_SIGNALS name_to_id id_to_name.

(** The payload of [get_location]. *)
Definition payload (current_loc prev_loc : coord)
    (start_id dest_id next_signal_id : Z) : string :=
  join_comma
    [format_6f (fst current_loc); format_6f (snd current_loc);
     format_6f (fst prev_loc); format_6f (snd prev_loc);
     str_int start_id; str_int dest_id; str_int next_signal_id].

Section Shared.
Context `{PyMath}.

(** [haversine(lat1, lon1, lat2, lon2)]: distance in kilometres. *)
Definition haversine (lat1 lon1 lat2 lon2 : float) : float :=
  let R := 6371.0%float in
  let lat1_rad := math_radians lat1 in
  let lon1_rad := math_radians lon1 in
  let lat2_rad := math_radians lat2 in
  let lon2_rad := math_radians lon2 in
  let dlon := (lon2_rad - lon1_rad)%float in
  let dlat := (lat2_rad - lat1_rad)%float in
  let a := (float_pow (math_sin (dlat / 2)) 2
            + math_cos lat1_rad * math_cos lat2_rad
              * float_pow (math_sin (dlon / 2)) 2)%float in
  let c := (2 * math_atan2 (math_sqrt a) (math_sqrt (1 - a)))%float in
  (R * c)%float.

(** The first statement of [find_signals_on_path]: the names of the signals
    that some point of the path comes closer to than [radius]. *)
Definition signals_near (reg : Registry) (radius : float)
    (route_points : list coord) : list string :=
  map fst
    (List.filter
       (fun item =>
          existsb
            (fun p =>
               PrimFloat.ltb
                 (haversine (fst p) (snd p) (fst (snd item)) (snd (snd item)))
                 radius)
            route_points)
       (SIGNALS reg)).

(** The key of [waypoints.sort]: the distance of signal [name] from the
    start.  Only names of [SIGNALS] are sorted, so the lookup succeeds. *)
Definition distance_from (reg : Registry) (start_lat start_lon : float)
    (name : string) : float :=
  match get (SIGNALS reg) name with
  | Some c => haversine start_lat start_lon (fst c) (snd c)
  | None => PrimFloat.nan
  end.

(** One iteration of the loop of [find_next_signal_on_route], as the control
    panel and the simulation server have it. *)
Definition find_next_body (reg : Registry) (current_lat current_lon : float)
    (st : State) : option string * State :=
  match next_not_in (route_signal_waypoints st)
          (signals_passed_on_current_route st) with
  | None => (Some (current_destination_name st), st)
  | Some next_signal_name =>
      let c := get_default (SIGNALS reg) next_signal_name (0%float, 0%float) in
      let next_signal_lat := fst c in
      let next_signal_lon := snd c in
      if PrimFloat.ltb
           (haversine current_lat current_lon next_signal_lat next_signal_lon)
           0.05%float
      then
        if mem next_signal_name (signals_passed_on_current_route st)
        then (None, st)
        else
          (None,
           set_signals_passed
             (signals_passed_on_current_route st ++ [next_signal_name]) st)
      else (Some next_signal_name, st)
  end.

(** [find_next_signal_on_route(current_lat, current_lon)], with as many
    iterations allowed as there are waypoints, plus one. *)
Definition find_next_signal_on_route (reg : Registry)
    (current_lat current_lon : float) (st : State) : option string * State :=
  fst (while_true (find_next_body reg current_lat current_lon)
         (Datatypes.S (length (route_signal_waypoints st))) st).

End Shared.

(** The route provider, [get_osrm_route]: given the two end points as
    [(lon, lat)] it answers with the path as a list of [(lon, lat)], or with
    [None] when the request fails or the answer is not [Ok]. *)
Definition provider : Type := float * float -> float * float -> option (list (float * float)).

(** [[(lat, lon) for lon, lat in coords]] *)
Definition swap_all (coords : list (float * float)) : list coord :=
  map (fun lon_lat => (snd lon_lat, fst lon_lat)) coords.

(** The truth value of [get_osrm_route]'s result: [None] and the empty list
    are false. *)
Definition truthy (r : option (list (float * float))) : option (list (float * float)) :=
  match r with
  | Some (c :: cs) => Some (c :: cs)
  | _ => None
  end.

(* ===================================================================== *)
(** * Control Panel/control_panel_server.py *)
(* ===================================================================== *)

Module ControlPanel.

Definition WAYPOINT_PROXIMITY_KM : float := 0.1.

Section Server.
Context `{PyMath}.
Variable reg : Registry.

Definition find_signals_on_path (route_points : list coord)
    (start_name end_name : string) : result (list string) :=
  let waypoints := signals_near reg WAYPOINT_PROXIMITY_KM route_points in
  match getitem (SIGNALS reg) start_name with
  | Raise e => Raise e
  | Ok start_c =>
      let waypoints :=
        sort_key (distance_from reg (fst start_c) (snd start_c)) waypoints in
      let waypoints := discard start_name waypoints in
      let waypoints := discard end_name waypoints in
      let final_waypoints := [start_name] ++ waypoints ++ [end_name] in
      Ok (fromkeys final_waypoints)
  end.

(** The pair [(None, None)] is [None]; a pair of two points is [Some]. *)
Definition get_next_simulated_location : M (option (coord * coord)) :=
  rp <- read route_points ;;
  i <- read current_point_index ;;
  if match rp with [] => true | _ => false end || (length rp <=? i)%nat
  then
    match rp with
    | _ :: _ =>
        final <- lift (index_from_end rp 1) ;;
        before <- lift (if (1 <? length rp)%nat then index_from_end rp 2
                        else index_from_end rp 1) ;;
        ret (Some (final, before))
    | [] => ret None
    end
  else
    previous <- lift (if (0 <? i)%nat then index rp (i - 1) else index rp 0) ;;
    write (set_previous_location (Some previous)) ;;;
    current_location <- lift (index rp i) ;;
    write (set_current_point_index (i + 1)) ;;;
    ret (Some (current_location, previous)).

Definition start_manual_route (get_osrm_route : provider)
    (start_id end_id : Z) : M response :=
  start_name <- lift (getitem (SIGNAL_ID_TO_NAME reg) start_id) ;;
  write (set_current_start_name start_name) ;;;
  destination_name <- lift (getitem (SIGNAL_ID_TO_NAME reg) end_id) ;;
  write (set_current_destination_name destination_name) ;;;
  start_coord <- lift (getitem (SIGNALS reg) start_name) ;;
  end_coord <- lift (getitem (SIGNALS reg) destination_name) ;;
  let full_route_coords :=
    get_osrm_route (snd start_coord, fst start_coord)
                   (snd end_coord, fst end_coord) in
  match truthy full_route_coords with
  | Some coords =>
      write (set_route_points (swap_all coords)) ;;;
      wps <- lift (find_signals_on_path (swap_all coords)
                     start_name destination_name) ;;
      write (set_route_signal_waypoints wps) ;;;
      write (set_current_point_index 0) ;;;
      write (set_previous_location None) ;;;
      write (set_signals_passed []) ;;;
      ret (Json "Simulation started successfully!" (Some wps) 200)
  | None => ret (Json "Error: Could not calculate route." None 500)
  end.

(** The loop of [find_next_signal_on_route] always returns
    ([find_next_returns] below), so the case [None] of its result, the fuel
    running out, does not occur; it is mapped to the source's own
    unreachable [is None] branch. *)
Definition get_location : M response :=
  loc <- get_next_simulated_location ;;
  match loc with
  | None => ret (Text "error: no route selected" 500)
  | Some (current_loc, prev_loc) =>
      next <- (fun st =>
                 let r := find_next_signal_on_route reg
                            (fst current_loc) (snd current_loc) st in
                 (Ok (fst r), snd r)) ;;
      match next with
      | None => ret (Text "error: could not find next signal" 500)
      | Some next_signal_name =>
          start_name <- read current_start_name ;;
          destination_name <- read current_destination_name ;;
          let start_id := get_default (SIGNAL_NAME_TO_ID reg) start_name 0 in
          let dest_id := get_default (SIGNAL_NAME_TO_ID reg) destination_name 0 in
          let next_signal_id :=
            get_default (SIGNAL_NAME_TO_ID reg) next_signal_name 0 in
          ret (Text (payload current_loc prev_loc start_id dest_id next_signal_id)
                 200)
      end
  end.

End Server.
End ControlPanel.

(* ===================================================================== *)
(** * VSC/control_panel_server.py *)
(* ===================================================================== *)

Module VSC.

Definition WAYPOINT_PROXIMITY_KM : float := 0.1.

Section Server.
Context `{PyMath}.
Variable reg : Registry.

Definition find_signals_on_path (points : list coord)
    (start_name end_name : string) : result (list string) :=
  let path_signals := signals_near reg WAYPOINT_PROXIMITY_KM points in
  match getitem (SIGNALS reg) start_name with
  | Raise e => Raise e
  | Ok start_c =>
      let path_signals :=
        sort_key (distance_from reg (fst start_c) (snd start_c)) path_signals in
      let path_signals := discard start_name path_signals in
      let path_signals := discard end_name path_signals in
      Ok ([start_name] ++ path_signals ++ [end_name])
  end.

Definition get_next_simulated_location : M (option (coord * coord)) :=
  rp <- read route_points ;;
  i <- read current_point_index ;;
  if match rp with [] => true | _ => false end || (length rp <=? i)%nat
  then ret None
  else
    previous <- lift (if (0 <? i)%nat then index rp (i - 1) else index rp 0) ;;
    write (set_previous_location (Some previous)) ;;;
    current_location <- lift (index rp i) ;;
    write (set_current_point_index (i + 1)) ;;;
    ret (Some (current_location, previous)).

Definition start_route (get_osrm_route : provider)
    (start_id end_id : Z) : M response :=
  start_name <- lift (getitem (SIGNAL_ID_TO_NAME reg) start_id) ;;
  write (set_current_start_name start_name) ;;;
  destination_name <- lift (getitem (SIGNAL_ID_TO_NAME reg) end_id) ;;
  write (set_current_destination_name destination_name) ;;;
  start_coord <- lift (getitem (SIGNALS reg) start_name) ;;
  end_coord <- lift (getitem (SIGNALS reg) destination_name) ;;
  let coords :=
    get_osrm_route (snd start_coord, fst start_coord)
                   (snd end_coord, fst end_coord) in
  match truthy coords with
  | Some coords =>
      write (set_route_points (swap_all coords)) ;;;
      wps <- lift (find_signals_on_path (swap_all coords)
                     start_name destination_name) ;;
      write (set_route_signal_waypoints wps) ;;;
      write (set_current_point_index 0) ;;;
      write (set_signals_passed []) ;;;
      ret (Json "Started" (Some wps) 200)
  | None => ret (Json "OSRM Error" None 500)
  end.

(** One iteration of the loop of [find_next_signal_on_route] of this
    variant, which looks the waypoint up with [SIGNALS[next_sig]]: the
    iteration returns a name, raises, or falls through. *)
Definition find_next_body (curr_lat curr_lon : float) (st : State)
  : option (result string) * State :=
  match next_not_in (route_signal_waypoints st)
          (signals_passed_on_current_route st) with
  | None => (Some (Ok (current_destination_name st)), st)
  | Some next_sig =>
      match getitem (SIGNALS reg) next_sig with
      | Raise e => (Some (Raise e), st)
      | Ok c =>
          let s_lat := fst c in
          let s_lon := snd c in
          if PrimFloat.ltb (haversine curr_lat curr_lon s_lat s_lon) 0.05%float
          then
            if mem next_sig (signals_passed_on_current_route st)
            then (None, st)
            else
              (None,
               set_signals_passed
                 (signals_passed_on_current_route st ++ [next_sig]) st)
          else (Some (Ok next_sig), st)
      end
  end.

Definition find_next_signal_on_route (curr_lat curr_lon : float) (st : State)
  : option (result string) * State :=
  fst (while_true (find_next_body curr_lat curr_lon)
         (Datatypes.S (length (route_signal_waypoints st))) st).

(** [get_location] of this variant does not test the name for [None]; the
    id of [None] would be [SIGNAL_NAME_TO_ID.get(None, 0)], which is 0. *)
Definition get_location : M response :=
  loc <- get_next_simulated_location ;;
  match loc with
  | None => ret (Text "error: no route selected" 500)
  | Some (curr, prev) =>
      nxt_name <- (fun st =>
                     let r := find_next_signal_on_route (fst curr) (snd curr) st in
                     match fst r with
                     | Some (Ok name) => (Ok (Some name), snd r)
                     | Some (Raise e) => (Raise e, snd r)
                     | None => (Ok None, snd r)
                     end) ;;
      start_name <- read current_start_name ;;
      destination_name <- read current_destination_name ;;
      let s_id := get_default (SIGNAL_NAME_TO_ID reg) start_name 0 in
      let d_id := get_default (SIGNAL_NAME_TO_ID reg) destination_name 0 in
      let n_id :=
        match nxt_name with
        | Some name => get_default (SIGNAL_NAME_TO_ID reg) name 0
        | None => 0
        end in
      ret (Text (payload curr prev s_id d_id n_id) 200)
  end.

End Server.
End VSC.

(* ===================================================================== *)
(** * Simulation Server/simulation_server.py *)
(* ===================================================================== *)

Module SimulationServer.

Section Server.
Context `{PyMath}.
Variable reg : Registry.
Variable PRECALCULATED_ROUTES : list Route.

Definition find_signals_on_path (route_points : list coord)
    (start_name end_name : string) : result (list string) :=
  let waypoints := signals_near reg 0.05%float route_points in
  match getitem (SIGNALS reg) start_name with
  | Raise e => Raise e
  | Ok start_c =>
      let waypoints :=
        sort_key (distance_from reg (fst start_c) (snd start_c)) waypoints in
      let waypoints := discard start_name waypoints in
      let waypoints := discard end_name waypoints in
      let final_waypoints := [start_name] ++ waypoints ++ [end_name] in
      Ok (fromkeys final_waypoints)
  end.

(** [random.choice(PRECALCULATED_ROUTES)] is the entry at a random index
    below the length of the pool; [draw] is the random number of this
    call. *)
Definition select_new_route (draw : nat) : M bool :=
  match PRECALCULATED_ROUTES with
  | [] => ret false
  | first :: _ =>
      let selected_route :=
        nth (draw mod length PRECALCULATED_ROUTES) PRECALCULATED_ROUTES first in
      write (set_route_points (points selected_route)) ;;;
      write (set_route_signal_waypoints (waypoints selected_route)) ;;;
      write (set_current_start_name (start selected_route)) ;;;
      write (set_current_destination_name (end_ selected_route)) ;;;
      write (set_current_point_index 0) ;;;
      write (set_previous_location None) ;;;
      write (set_signals_passed []) ;;;
      ret true
  end.

Definition advance : M (option (coord * coord)) :=
  rp <- read route_points ;;
  i <- read current_point_index ;;
  previous <- lift (if (0 <? i)%nat then index rp (i - 1) else index rp 0) ;;
  write (set_previous_location (Some previous)) ;;;
  current_location <- lift (index rp i) ;;
  write (set_current_point_index (i + 1)) ;;;
  ret (Some (current_location, previous)).

Definition get_next_simulated_location (draw : nat)
  : M (option (coord * coord)) :=
  rp <- read route_points ;;
  i <- read current_point_index ;;
  if match rp with [] => true | _ => false end || (length rp <=? i)%nat
  then
    selected <- select_new_route draw ;;
    if selected then advance else ret None
  else advance.

Definition get_location (draw : nat) : M response :=
  loc <- get_next_simulated_location draw ;;
  match loc with
  | None => ret (Text "error" 500)
  | Some (current_loc, prev_loc) =>
      next <- (fun st =>
                 let r := find_next_signal_on_route reg
                            (fst current_loc) (snd current_loc) st in
                 (Ok (fst r), snd r)) ;;
      match next with
      | None => ret (Text "error" 500)
      | Some next_signal_name =>
          start_name <- read current_start_name ;;
          destination_name <- read current_destination_name ;;
          let start_id := get_default (SIGNAL_NAME_TO_ID reg) start_name 0 in
          let dest_id := get_default (SIGNAL_NAME_TO_ID reg) destination_name 0 in
          let next_signal_id :=
            get_default (SIGNAL_NAME_TO_ID reg) next_signal_name 0 in
          ret (Text (payload current_loc prev_loc start_id dest_id next_signal_id)
                 200)
      end
  end.

Definition NUM_PRECALCULATED_ROUTES : nat := 20.

(** One iteration of the pre-calculation loop of the main block, for the
    pair [(start_name, dest_name)] that [random.sample(list(SIGNALS.keys()), 2)]
    drew: the route is appended to the pool when the provider answers, and
    skipped when it does not. *)
Definition precalculate_one (get_osrm_route : provider)
    (pool : list Route) (sample : string * string) : result (list Route) :=
  let start_name := fst sample in
  let dest_name := snd sample in
  match getitem (SIGNALS reg) start_name with
  | Raise e => Raise e
  | Ok start_coord =>
      match getitem (SIGNALS reg) dest_name with
      | Raise e => Raise e
      | Ok dest_coord =>
          let route_coords :=
            get_osrm_route (snd start_coord, fst start_coord)
                           (snd dest_coord, fst dest_coord) in
          match truthy route_coords with
          | Some coords =>
              let points := swap_all coords in
              match find_signals_on_path points start_name dest_name with
              | Raise e => Raise e
              | Ok waypoints =>
                  Ok (pool ++ [mkRoute start_name dest_name points waypoints])
              end
          | None => Ok pool
          end
      end
  end.

(** The loop, over the pairs drawn in its successive iterations (there are
    [NUM_PRECALCULATED_ROUTES] of them), from the pool [pool]. *)
Fixpoint precalculate (get_osrm_route : provider) (pool : list Route)
    (samples : list (string * string)) : result (list Route) :=
  match samples with
  | [] => Ok pool
  | sample :: rest =>
      match precalculate_one get_osrm_route pool sample with
      | Raise e => Raise e
      | Ok pool' => precalculate get_osrm_route pool' rest
      end
  end.

End Server.
End SimulationServer.

(* ===================================================================== *)
(** * A reference implementation of the [math] functions

    Truncated power series, close to the C library's values for the small
    angles of a city map.  It serves to run the servers on concrete inputs;
    every theorem below holds for all implementations of [PyMath]. *)
(* ===================================================================== *)

Module TaylorMath.
Local Open Scope float_scope.

Definition pi : float := 0x1.921fb54442d18p+1.

Definition sin (x : float) : float :=
  let x2 := x * x in
  x * (1 - x2 / 6 * (1 - x2 / 20 * (1 - x2 / 42 * (1 - x2 / 72
    * (1 - x2 / 110 * (1 - x2 / 156 * (1 - x2 / 210 * (1 - x2 / 272)))))))).

Definition cos (x : float) : float :=
  let x2 := x * x in
  1 - x2 / 2 * (1 - x2 / 12 * (1 - x2 / 30 * (1 - x2 / 56
    * (1 - x2 / 90 * (1 - x2 / 132 * (1 - x2 / 182 * (1 - x2 / 240))))))).

(** Halving the angle: [atan t = 2 * atan (t / (1 + sqrt (1 + t * t)))]. *)
Definition half_angle (t : float) : float := t / (1 + PrimFloat.sqrt (1 + t * t)).

(** [atan t] for [0 <= t <= 1]. *)
Definition atan_unit (t : float) : float :=
  let u := half_angle (half_angle (half_angle t)) in
  let u2 := u * u in
  8 * (u * (1 - u2 * (1 / 3 - u2 * (1 / 5 - u2 * (1 / 7 - u2 * (1 / 9
    - u2 * (1 / 11 - u2 * (1 / 13)))))))).

(** [atan2 y x] for [y >= 0] and [x >= 0], the quadrant [haversine] asks for,
    extended to the other quadrants by symmetry. *)
Definition atan2_first (y x : float) : float :=
  if PrimFloat.eqb y 0 then 0
  else if PrimFloat.leb y x then atan_unit (y / x)
  else pi / 2 - atan_unit (x / y).

Definition atan2 (y x : float) : float :=
  let ay := PrimFloat.abs y in
  let ax := PrimFloat.abs x in
  let r := atan2_first ay ax in
  let r := if PrimFloat.ltb x 0 then pi - r else r in
  if PrimFloat.ltb y 0 then - r else r.

(** [x ** y]; the servers only square. *)
Definition pow (x y : float) : float :=
  if PrimFloat.eqb y 2 then x * x
  else if PrimFloat.eqb y 1 then x
  else if PrimFloat.eqb y 0 then 1
  else PrimFloat.nan.

Definition math : PyMath :=
  {| math_sin := sin; math_cos := cos; math_atan2 := atan2; float_pow := pow |}.

End TaylorMath.

(** The signal list of the control panel (both variants). *)
Definition KNOWN_SIGNALS : dict string coord :=
  [ ("Chakli Circle", (22.308333, 73.165278));
    ("Diwalipura Circle", (22.301806, 73.165500));
    ("Elora T-Junction", (22.315333, 73.161444));
    ("Genda Circle (Natubhai Circle)", (22.309944, 73.158667));
    ("Gotri Circle", (22.315556, 73.138000));
    ("Hari Nagar Char Rasta", (22.311278, 73.153167));
    ("ISKCON Circle", (22.303361, 73.151833));
    ("Manisha Circle", (22.296306, 73.164583));
    ("Nilamber Circle", (22.302000, 73.138944));
    ("Tandalja SP T-Junction (Natubhai Circle)", (22.280444, 73.153194)) ]%float%string.

(** The registry of the control panel after [setup_signal_data]. *)
Definition control_panel_registry : Registry := setup_signal_data KNOWN_SIGNALS.

(** A provider whose every request fails, and one that answers with the
    straight path from the start to the end. *)
Definition refusing : provider := fun _ _ => None.

Definition straight : provider := fun a b => Some [a; b].

(** A state in which the route from "Chakli Circle" to "Diwalipura Circle"
    is active and has been ticked once. *)
Definition ticked_state : State :=
  mkState [ (22.308333, 73.165278); (22.301806, 73.165500) ]%float
    [ "Chakli Circle"; "Diwalipura Circle" ]%string
    1%nat (Some (22.308333, 73.165278)%float)
    "Chakli Circle" "Diwalipura Circle" [ "Chakli Circle"%string ].

(** A fresh route of a single point. *)
Definition single_point_state : State :=
  mkState [ (22.308333, 73.165278)%float ] [ "Chakli Circle"%string ]
    0%nat None "Chakli Circle" "Chakli Circle" [].

(** The three signals of the specification's end-to-end scenario. *)
Definition ABC_SIGNALS : dict string coord :=
  [ ("A", (0, 0)); ("B", (0, 0.001)); ("C", (0, 10)) ]%float%string.

Definition ABC_path : list coord :=
  [ (0, 0); (0, 0.0009); (0, 9.999); (0, 10) ]%float.

Definition ABC_registry : Registry := setup_signal_data ABC_SIGNALS.

(** The scenario's route, freshly activated. *)
Definition ABC_state : State :=
  mkState ABC_path [ "A"; "B"; "C" ]%string 0%nat None "A" "C" [].

(** Two draws of the pre-calculation in the scenario, and the pool that the
    straight provider gives for them. *)
Definition ABC_samples : list (string * string) :=
  [ ("A", "C"); ("B", "A") ]%string.

Definition ABC_pool : list Route :=
  match @SimulationServer.precalculate TaylorMath.math ABC_registry straight []
          ABC_samples with
  | Ok pool => pool
  | Raise _ => []
  end.

(** A route of the control panel with a waypoint, "Ghost", that is not a
    signal of the registry. *)
Definition ghost_state : State :=
  mkState [ (22.308333, 73.165278); (22.301806, 73.165500) ]%float
    [ "Ghost"; "Diwalipura Circle" ]%string
    0%nat None "Chakli Circle" "Diwalipura Circle" [].

(** The step that the three variants share while the cursor is inside the
    route: the point under the cursor is returned with its predecessor (the
    first point has itself as predecessor), the cursor moves by one and the
    predecessor is recorded. *)
Definition advanced (st : State) (cur prev : coord) : State :=
  set_current_point_index (current_point_index st + 1)
    (set_previous_location (Some prev) st).

(** The state after [n] successive calls of a handler. *)
Fixpoint after {A} (n : nat) (c : M A) (st : State) : State :=
  match n with
  | O => st
  | S n' => after n' c (snd (c st))
  end.

(* ===================================================================== *)
(** * The properties of the specification, as predicates *)
(* ===================================================================== *)



(** The distance that [find_next_signal_on_route] computes for waypoint
    [name]: from the current point to the coordinate it looks up, which is
    [(0, 0)] for a name that is not in [SIGNALS]. *)
Definition distance_to `{PyMath} (reg : Registry) (current_lat current_lon : float)
    (name : string) : float :=
  let c := get_default (SIGNALS reg) name (0%float, 0%float) in
  haversine current_lat current_lon (fst c) (snd c).

(** The arrival test: the distance is below 0.05 km. *)
Definition arrived `{PyMath} (reg : Registry) (current_lat current_lon : float)
    (name : string) : bool :=
  PrimFloat.ltb (distance_to reg current_lat current_lon name) 0.05%float.

(** [arrivals wps passed passed']: starting from the passed list [passed],
    the first waypoint not yet passed has been reached and was appended, and
    so on for the first waypoint not passed after that, up to [passed']. *)
Inductive arrivals `{PyMath} (reg : Registry) (current_lat current_lon : float)
    (wps : list string) : list string -> list string -> Prop :=
| arrivals_none (passed : list string) :
    arrivals reg current_lat current_lon wps passed passed
| arrivals_next (passed passed' : list string) (w : string) :
    next_not_in wps passed = Some w ->
    arrived reg current_lat current_lon w = true ->
    arrivals reg current_lat current_lon wps (passed ++ [w]) passed' ->
    arrivals reg current_lat current_lon wps passed passed'.

(** The waypoints (counted with repetitions) that are not passed yet. *)
Definition remaining (wps passed : list string) : nat :=
  length (List.filter (fun w => negb (mem w passed)) wps).

(** The state after calls of [find_next_signal_on_route] at the given
    positions, in order. *)
Fixpoint after_calls `{PyMath} (reg : Registry) (positions : list coord)
    (st : State) : State :=
  match positions with
  | [] => st
  | p :: ps =>
      after_calls reg ps (snd (find_next_signal_on_route reg (fst p) (snd p) st))
  end.

(** Reading a decimal numeral back: the value of a string of digits. *)
Definition digit_value (c : ascii) : Z := Z.of_nat (nat_of_ascii c) - 48.

Fixpoint decode (s : string) : Z :=
  match s with
  | EmptyString => 0
  | String c s' => digit_value c * 10 ^ Z.of_nat (String.length s') + decode s'
  end.

Fixpoint all_digits (s : string) : Prop :=
  match s with
  | EmptyString => True
  | String c s' => 0 <= digit_value c <= 9 /\ all_digits s'
  end.

(** The part of the state that belongs to the route being driven. *)
Definition same_route (st st' : State) : Prop :=
  route_points st' = route_points st /\
  route_signal_waypoints st' = route_signal_waypoints st /\
  current_point_index st' = current_point_index st /\
  previous_location st' = previous_location st /\
  signals_passed_on_current_route st' = signals_passed_on_current_route st.

(** [idOf] of the specification: [SIGNAL_NAME_TO_ID.get(name, 0)]. *)
Definition id_of (reg : Registry) (name : string) : Z :=
  get_default (SIGNAL_NAME_TO_ID reg) name 0.

(** The order of [str]: [a < b]. *)
Definition str_lt (a b : string) : Prop := String.ltb a b = true.

(** The ids of [reg] number the names of [K] from 1 in ascending order:
    there is a strictly ascending arrangement [names] of the keys of [K]
    such that the name at (0-based) position [i] has id [i + 1], both
    ways. *)
Definition numbered_ascending (K : dict string coord) (reg : Registry) : Prop :=
  exists names,
    names ≡ₚ keys K /\ StronglySorted str_lt names /\
    keys (SIGNAL_ID_TO_NAME reg) = map fst (enumerate_from 1 names) /\
    forall (i : nat) (name : string),
      nth_error names i = Some name ->
      get (SIGNAL_NAME_TO_ID reg) name = Some (Z.of_nat i + 1) /\
      get (SIGNAL_ID_TO_NAME reg) (Z.of_nat i + 1) = Some name.


(** The number of occurrences of a character in a string. *)
Fixpoint count_char (c : ascii) (s : string) : nat :=
  match s with
  | EmptyString => 0%nat
  | String c' s' => ((if Ascii.eqb c c' then 1 else 0) + count_char c s')%nat
  end.





(* ===================================================================== *)
(** * Facts about the Python primitives *)
(* ===================================================================== *)

Section PyFacts.

Lemma mem_true (x : string) (l : list string) : mem x l = true <-> x ∈ l.
Proof.
  unfold mem. rewrite existsb_exists. split.
  - intros (y & Hy & Heq). apply String.eqb_eq in Heq. subst.
    now apply list_elem_of_In.
  - intros Hx. exists x. split; [now apply list_elem_of_In | apply String.eqb_refl].
Qed.

Lemma mem_false (x : string) (l : list string) : mem x l = false <-> x ∉ l.
Proof.
  rewrite <- mem_true. destruct (mem x l); split; congruence.
Qed.

Lemma insert_by_perm {A} (lt : A -> A -> bool) (x : A) (l : list A) :
  insert_by lt x l ≡ₚ x :: l.
Proof.
  induction l as [|y l IH]; simpl; [reflexivity|].
  destruct (lt y x); [|reflexivity].
  rewrite IH. apply Permutation_swap.
Qed.

Lemma sort_by_perm {A} (lt : A -> A -> bool) (l : list A) : sort_by lt l ≡ₚ l.
Proof.
  induction l as [|x l IH]; simpl; [reflexivity|].
  rewrite insert_by_perm. now rewrite IH.
Qed.





Lemma get_Some_elem `{EqDecision K} {V} (d : dict K V) (k : K) (v : V) :
  get d k = Some v -> (k, v) ∈ d.
Proof.
  induction d as [|[k' v'] d IH]; simpl; [discriminate|].
  destruct (decide (k = k')) as [->|Hne].
  - intros [= ->]. now left.
  - intros Hg. right. now apply IH.
Qed.

Lemma get_is_Some `{EqDecision K} {V} (d : dict K V) (k : K) :
  k ∈ keys d -> exists v, get d k = Some v.
Proof.
  induction d as [|[k' v'] d IH]; simpl; intros Hk.
  - now apply elem_of_nil in Hk.
  - destruct (decide (k = k')) as [->|Hne]; [now eexists|].
    apply elem_of_cons in Hk as [Hk|Hk]; [contradiction|]. now apply IH.
Qed.


End PyFacts.

(* ===================================================================== *)
(** * Waypoint sequencing: [find_signals_on_path] *)
(* ===================================================================== *)

Section Sequencing.
Context `{PyMath}.
Variable reg : Registry.
Hypothesis SIGNALS_is_dict : NoDup (keys (SIGNALS reg)).










End Sequencing.

(* ===================================================================== *)
(** * The signal registry: [setup_signal_data] *)
(* ===================================================================== *)

Section StringOrder.

Lemma ascii_compare_refl (a : ascii) : Ascii.compare a a = Eq.
Proof. unfold Ascii.compare. apply N.compare_refl. Qed.

Lemma ascii_compare_lt_trans (a b c : ascii) :
  Ascii.compare a b = Lt -> Ascii.compare b c = Lt -> Ascii.compare a c = Lt.
Proof. unfold Ascii.compare. rewrite !N.compare_lt_iff. lia. Qed.

Lemma string_compare_lt_trans (a b c : string) :
  String.compare a b = Lt -> String.compare b c = Lt -> String.compare a c = Lt.
Proof.
  revert b c. induction a as [|x a IH]; intros [|y b] [|z c]; simpl;
    try congruence.
  destruct (Ascii.compare x y) eqn:Hxy, (Ascii.compare y z) eqn:Hyz;
    try discriminate; intros Hab Hbc.
  - apply Ascii.compare_eq_iff in Hxy, Hyz. subst.
    rewrite ascii_compare_refl. eauto.
  - apply Ascii.compare_eq_iff in Hxy. subst. now rewrite Hyz.
  - apply Ascii.compare_eq_iff in Hyz. subst. now rewrite Hxy.
  - now rewrite (ascii_compare_lt_trans _ _ _ Hxy Hyz).
Qed.

Lemma str_lt_compare (a b : string) : str_lt a b <-> String.compare a b = Lt.
Proof.
  unfold str_lt, String.ltb. destruct (String.compare a b); split; congruence.
Qed.

Lemma str_lt_trans : Transitive str_lt.
Proof.
  intros a b c. rewrite !str_lt_compare. apply string_compare_lt_trans.
Qed.

Lemma str_lt_asym (a b : string) : str_lt a b -> str_lt b a -> False.
Proof.
  rewrite !str_lt_compare. rewrite (String.compare_antisym b a).
  intros ->. discriminate.
Qed.

Lemma str_lt_antisym : AntiSymm eq str_lt.
Proof. intros a b Hab Hba. destruct (str_lt_asym a b Hab Hba). Qed.

Lemma str_lt_trichotomy (a b : string) :
  String.ltb a b = false -> a <> b -> str_lt b a.
Proof.
  intros Hlt Hne. apply str_lt_compare. rewrite String.compare_antisym.
  unfold String.ltb in Hlt. destruct (String.compare a b) eqn:Hc;
    [|discriminate|reflexivity].
  apply String.compare_eq_iff in Hc. contradiction.
Qed.

Lemma insert_by_sorted (x : string) (l : list string) :
  StronglySorted str_lt l -> x ∉ l ->
  StronglySorted str_lt (insert_by String.ltb x l).
Proof.
  induction l as [|y l IH]; simpl; intros Hs Hx.
  - repeat constructor.
  - apply StronglySorted_inv in Hs as [Hs Hy].
    apply not_elem_of_cons in Hx as [Hxy Hx].
    destruct (String.ltb y x) eqn:Hlt.
    + constructor; [now apply IH|].
      rewrite Forall_forall in Hy |- *. intros z Hz.
      rewrite insert_by_perm in Hz.
      apply elem_of_cons in Hz as [->|Hz]; [exact Hlt|].
      now apply Hy.
    + pose proof (str_lt_trichotomy y x Hlt (not_eq_sym Hxy)) as Hxlty.
      constructor; [now constructor|].
      constructor; [exact Hxlty|].
      rewrite Forall_forall in Hy |- *. intros z Hz.
      apply (str_lt_trans x y z); [exact Hxlty|now apply Hy].
Qed.

Lemma sorted_strictly (l : list string) :
  NoDup l -> StronglySorted str_lt (sorted l).
Proof.
  unfold sorted. induction l as [|x l IH]; simpl; intros Hnd; [constructor|].
  apply NoDup_cons in Hnd as [Hx Hnd].
  apply insert_by_sorted; [now apply IH|].
  now rewrite sort_by_perm.
Qed.

Lemma sorted_perm (l : list string) : sorted l ≡ₚ l.
Proof. apply sort_by_perm. Qed.

(** [sorted] depends on the set of names only. *)
Lemma sorted_of_set (l1 l2 : list string) :
  NoDup l1 -> NoDup l2 -> (forall n, n ∈ l1 <-> n ∈ l2) -> sorted l1 = sorted l2.
Proof.
  intros Hnd1 Hnd2 Hset.
  apply (@StronglySorted_unique _ str_lt str_lt_antisym);
    try now apply sorted_strictly.
  rewrite !sorted_perm. now apply NoDup_Permutation.
Qed.

End StringOrder.

Section RegistryFacts.

Lemma setitem_fresh `{EqDecision K} {V} (d : dict K V) (k : K) (v : V) :
  k ∉ keys d -> setitem d k v = d ++ [(k, v)].
Proof.
  induction d as [|[k' v'] d IH]; simpl; intros Hk; [reflexivity|].
  apply not_elem_of_cons in Hk as [Hne Hk].
  rewrite decide_False by exact Hne. now rewrite IH.
Qed.

Lemma dict_of_items_acc `{EqDecision K} {V} (items acc : list (K * V)) :
  NoDup (keys (acc ++ items)) ->
  fold_left (fun d kv => setitem d (fst kv) (snd kv)) items acc = acc ++ items.
Proof.
  revert acc. induction items as [|[k v] items IH]; intros acc Hnd; simpl.
  - now rewrite app_nil_r.
  - rewrite setitem_fresh.
    + rewrite IH; rewrite <- app_assoc; [reflexivity|exact Hnd].
    + unfold keys in Hnd. rewrite map_app in Hnd. simpl in Hnd.
      apply NoDup_app in Hnd as (_ & Hdis & _).
      intros Hin. apply (Hdis k Hin). now left.
Qed.

(** A dict comprehension over items with distinct keys keeps them as they
    are. *)
Lemma dict_of_items_NoDup `{EqDecision K} {V} (items : list (K * V)) :
  NoDup (keys items) -> dict_of_items items = items.
Proof. intros Hnd. unfold dict_of_items. now rewrite dict_of_items_acc. Qed.

Lemma enumerate_shift {A} (s : Z) (l : list A) :
  map (fun i_x => (fst i_x + 1, snd i_x)) (enumerate_from s l)
  = enumerate_from (s + 1) l.
Proof.
  revert s. induction l as [|x l IH]; intros s; simpl; [reflexivity|].
  now rewrite IH.
Qed.

Lemma enumerate_keys_above {A} (s : Z) (l : list A) (k : Z) :
  k ∈ keys (enumerate_from s l) -> s <= k.
Proof.
  revert s. induction l as [|x l IH]; intros s; simpl; intros Hk.
  - now apply elem_of_nil in Hk.
  - apply elem_of_cons in Hk as [->|Hk]; [lia|].
    apply IH in Hk. lia.
Qed.

Lemma enumerate_keys_NoDup {A} (s : Z) (l : list A) :
  NoDup (keys (enumerate_from s l)).
Proof.
  revert s. induction l as [|x l IH]; intros s; simpl; [constructor|].
  apply NoDup_cons. split; [|apply IH].
  intros Hin. apply enumerate_keys_above in Hin. lia.
Qed.

Lemma enumerate_values {A} (s : Z) (l : list A) :
  map snd (enumerate_from s l) = l.
Proof.
  revert s. induction l as [|x l IH]; intros s; simpl; [reflexivity|].
  now rewrite IH.
Qed.

Lemma get_enumerate {A} (s : Z) (l : list A) (i : nat) (x : A) :
  nth_error l i = Some x -> get (enumerate_from s l) (Z.of_nat i + s) = Some x.
Proof.
  revert s i. induction l as [|y l IH]; intros s [|i];
    cbn [nth_error enumerate_from get]; try discriminate.
  - intros [= ->]. now rewrite decide_True.
  - intros Hx. rewrite decide_False by lia.
    replace (Z.of_nat (S i) + s) with (Z.of_nat i + (s + 1)) by lia.
    now apply IH.
Qed.

Lemma get_enumerate_inverse (s : Z) (l : list string) (i : nat) (x : string) :
  NoDup l -> nth_error l i = Some x ->
  get (map (fun i_x => (snd i_x, fst i_x)) (enumerate_from s l)) x
  = Some (Z.of_nat i + s).
Proof.
  revert s i. induction l as [|y l IH]; intros s [|i] Hnd;
    cbn [nth_error enumerate_from map get fst snd]; try discriminate.
  - intros [= ->]. now rewrite decide_True.
  - intros Hx. apply NoDup_cons in Hnd as [Hy Hnd].
    rewrite decide_False.
    + replace (Z.of_nat (S i) + s) with (Z.of_nat i + (s + 1)) by lia.
      now apply IH.
    + intros ->. apply Hy. apply list_elem_of_In. eapply nth_error_In, Hx.
Qed.

(** The tables that [setup_signal_data] builds, in closed form. *)
Lemma setup_signal_data_tables (K : dict string coord) :
  NoDup (keys K) ->
  SIGNAL_ID_TO_NAME (setup_signal_data K) = enumerate_from 1 (sorted (keys K)) /\
  SIGNAL_NAME_TO_ID (setup_signal_data K)
  = map (fun i_x => (snd i_x, fst i_x)) (enumerate_from 1 (sorted (keys K))).
Proof.
  intros Hnd. unfold setup_signal_data. simpl.
  unfold enumerate. rewrite enumerate_shift. simpl.
  rewrite (dict_of_items_NoDup (enumerate_from 1 _))
    by apply enumerate_keys_NoDup.
  split; [reflexivity|].
  apply dict_of_items_NoDup. unfold keys. rewrite map_map. simpl.
  rewrite enumerate_values. rewrite sorted_perm. exact Hnd.
Qed.

Lemma setup_numbered_ascending (K : dict string coord) :
  NoDup (keys K) -> numbered_ascending K (setup_signal_data K).
Proof.
  intros Hnd. destruct (setup_signal_data_tables K Hnd) as [Hid Hname].
  exists (sorted (keys K)). split; [apply sorted_perm|].
  split; [now apply sorted_strictly|].
  split; [now rewrite Hid|].
  intros i name Hi. rewrite Hid, Hname. split.
  - apply get_enumerate_inverse; [|exact Hi].
    rewrite sorted_perm. exact Hnd.
  - now apply get_enumerate.
Qed.

(** C5. The ids are a function of the set of signal names: the registry
    built from a dict numbers its names from 1 in ascending order of the
    names, two dicts with the same set of names get the same two id tables,
    and for the names "B" and "A" (inserted in that order, with any
    coordinates) the id of "A" is 1 and the id of "B" is 2. *)
Theorem signal_ids_deterministic (K1 K2 : dict string coord) :
  NoDup (keys K1) -> NoDup (keys K2) ->
  (forall n, n ∈ keys K1 <-> n ∈ keys K2) ->
  numbered_ascending K1 (setup_signal_data K1) /\
  SIGNAL_NAME_TO_ID (setup_signal_data K1)
  = SIGNAL_NAME_TO_ID (setup_signal_data K2) /\
  SIGNAL_ID_TO_NAME (setup_signal_data K1)
  = SIGNAL_ID_TO_NAME (setup_signal_data K2) /\
  forall cA cB : coord,
    id_of (setup_signal_data [("B"%string, cB); ("A"%string, cA)]) "A" = 1 /\
    id_of (setup_signal_data [("B"%string, cB); ("A"%string, cA)]) "B" = 2.
Proof.
  intros Hnd1 Hnd2 Hset.
  split; [now apply setup_numbered_ascending|].
  destruct (setup_signal_data_tables K1 Hnd1) as [Hid1 Hname1].
  destruct (setup_signal_data_tables K2 Hnd2) as [Hid2 Hname2].
  rewrite Hid1, Hid2, Hname1, Hname2.
  rewrite (sorted_of_set (keys K1) (keys K2) Hnd1 Hnd2 Hset).
  split; [reflexivity|]. split; [reflexivity|].
  intros cA cB. split; reflexivity.
Qed.

End RegistryFacts.

(* ===================================================================== *)
(** * The route simulator: [get_next_simulated_location] *)
(* ===================================================================== *)

Section Ticking.

Lemma index_Ok {A} (l : list A) (i : nat) (x : A) :
  nth_error l i = Some x -> index l i = Ok x.
Proof. unfold index. now intros ->. Qed.

Lemma index_from_end_nth {A} (l : list A) (i : nat) :
  (1 <= i <= length l)%nat -> index_from_end l i = index l (length l - i).
Proof.
  intros Hi. unfold index_from_end, index. rewrite nth_error_rev.
  destruct (Nat.ltb_spec (i - 1) (length l)) as [_|Hge]; [|lia].
  replace (length l - S (i - 1))%nat with (length l - i)%nat by lia.
  reflexivity.
Qed.

Lemma exhausted_false (pts : list coord) (i : nat) :
  (i < length pts)%nat ->
  match pts with [] => true | _ => false end || (length pts <=? i)%nat = false.
Proof.
  intros Hi. destruct pts as [|p pts]; [simpl in Hi; lia|].
  destruct (Nat.leb_spec (length (p :: pts)) i); [lia|reflexivity].
Qed.

Lemma exhausted_true (pts : list coord) (i : nat) :
  (length pts <= i)%nat ->
  match pts with [] => true | _ => false end || (length pts <=? i)%nat = true.
Proof.
  intros Hi. destruct (Nat.leb_spec (length pts) i); [|lia].
  now rewrite orb_true_r.
Qed.

Lemma in_range_points (st : State) :
  (current_point_index st < length (route_points st))%nat ->
  exists cur prev,
    nth_error (route_points st) (current_point_index st) = Some cur /\
    nth_error (route_points st) (current_point_index st - 1) = Some prev.
Proof.
  intros Hi.
  destruct (nth_error (route_points st) (current_point_index st)) as [cur|] eqn:Hc;
    [|apply nth_error_None in Hc; lia].
  destruct (nth_error (route_points st) (current_point_index st - 1))
    as [prev|] eqn:Hp; [|apply nth_error_None in Hp; lia].
  now exists cur, prev.
Qed.

Lemma previous_index (pts : list coord) (i : nat) (prev : coord) :
  nth_error pts (i - 1) = Some prev ->
  (if (0 <? i)%nat then index pts (i - 1) else index pts 0) = Ok prev.
Proof.
  intros Hp. destruct i as [|i]; simpl in *; now apply index_Ok.
Qed.

Lemma ControlPanel_tick_inside (st : State) (cur prev : coord) :
  (current_point_index st < length (route_points st))%nat ->
  nth_error (route_points st) (current_point_index st) = Some cur ->
  nth_error (route_points st) (current_point_index st - 1) = Some prev ->
  ControlPanel.get_next_simulated_location st
  = (Ok (Some (cur, prev)), advanced st cur prev).
Proof.
  intros Hi Hc Hp. unfold ControlPanel.get_next_simulated_location.
  run_handler. rewrite (exhausted_false _ _ Hi).
  rewrite (previous_index _ _ _ Hp). cbn [route_points set_previous_location].
  now rewrite (index_Ok _ _ _ Hc).
Qed.

Lemma VSC_tick_inside (st : State) (cur prev : coord) :
  (current_point_index st < length (route_points st))%nat ->
  nth_error (route_points st) (current_point_index st) = Some cur ->
  nth_error (route_points st) (current_point_index st - 1) = Some prev ->
  VSC.get_next_simulated_location st
  = (Ok (Some (cur, prev)), advanced st cur prev).
Proof.
  intros Hi Hc Hp. unfold VSC.get_next_simulated_location.
  run_handler. rewrite (exhausted_false _ _ Hi).
  rewrite (previous_index _ _ _ Hp). cbn [route_points set_previous_location].
  now rewrite (index_Ok _ _ _ Hc).
Qed.

(** Past the end the control panel holds the final point and leaves the
    state alone. *)
Lemma ControlPanel_tick_hold (st : State) (final before : coord) :
  route_points st <> [] ->
  (length (route_points st) <= current_point_index st)%nat ->
  nth_error (route_points st) (length (route_points st) - 1) = Some final ->
  nth_error (route_points st) (length (route_points st) - 2) = Some before ->
  ControlPanel.get_next_simulated_location st = (Ok (Some (final, before)), st).
Proof.
  intros Hne Hi Hf Hb. unfold ControlPanel.get_next_simulated_location.
  run_handler. rewrite (exhausted_true _ _ Hi).
  destruct (route_points st) as [|p pts] eqn:Hpts; [contradiction|].
  rewrite index_from_end_nth by (simpl; lia).
  rewrite (index_Ok _ _ _ Hf).
  destruct (Nat.ltb_spec 1 (length (p :: pts))) as [Hlen|Hlen].
  - rewrite index_from_end_nth by (simpl in *; lia).
    now rewrite (index_Ok _ _ _ Hb).
  - replace (length (p :: pts) - 2)%nat with (length (p :: pts) - 1)%nat in Hb
      by (simpl in *; lia).
    congruence.
Qed.

(** Past the end the VSC variant answers [(None, None)]. *)
Lemma VSC_tick_past_end (st : State) :
  (length (route_points st) <= current_point_index st)%nat ->
  VSC.get_next_simulated_location st = (Ok None, st).
Proof.
  intros Hi. unfold VSC.get_next_simulated_location. run_handler.
  now rewrite (exhausted_true _ _ Hi).
Qed.

Lemma advanced_fields (st : State) (cur prev : coord) :
  route_points (advanced st cur prev) = route_points st /\
  current_point_index (advanced st cur prev) = (current_point_index st + 1)%nat.
Proof. split; reflexivity. Qed.

(** The cursor after [k] ticks of a fresh route: [k] while inside the
    route, then the length of the route for ever. *)
Lemma ControlPanel_after_ticks (st : State) (k : nat) :
  route_points st <> [] -> current_point_index st = 0%nat ->
  route_points (after k ControlPanel.get_next_simulated_location st)
  = route_points st /\
  current_point_index (after k ControlPanel.get_next_simulated_location st)
  = Nat.min k (length (route_points st)).
Proof.
  intros Hne H0.
  assert (Hgen : forall k st',
             route_points st' = route_points st ->
             (current_point_index st' <= length (route_points st))%nat ->
             route_points (after k ControlPanel.get_next_simulated_location st')
             = route_points st /\
             current_point_index
               (after k ControlPanel.get_next_simulated_location st')
             = Nat.min (k + current_point_index st') (length (route_points st))).
  { clear k. induction k as [|k IH]; intros st' Hrp Hle; cbn [after].
    - split; [exact Hrp|]. cbn [Nat.add]. lia.
    - destruct (Nat.lt_ge_cases (current_point_index st')
                  (length (route_points st'))) as [Hin|Hout].
      + destruct (in_range_points st' Hin) as (cur & prev & Hc & Hp).
        rewrite (ControlPanel_tick_inside st' cur prev Hin Hc Hp). cbn [snd].
        destruct (advanced_fields st' cur prev) as [Hrp' Hidx'].
        destruct (IH (advanced st' cur prev)) as [IH1 IH2];
          [now rewrite Hrp'|rewrite Hidx', <- Hrp; lia|].
        split; [exact IH1|]. rewrite IH2, Hidx'. f_equal. lia.
      + assert (Hlen : (0 < length (route_points st'))%nat).
        { rewrite Hrp. destruct (route_points st); [contradiction|simpl; lia]. }
        destruct (nth_error (route_points st') (length (route_points st') - 1))
          as [final|] eqn:Hf; [|apply nth_error_None in Hf; lia].
        destruct (nth_error (route_points st') (length (route_points st') - 2))
          as [before|] eqn:Hb; [|apply nth_error_None in Hb; lia].
        rewrite (ControlPanel_tick_hold st' final before); try assumption;
          [|rewrite Hrp; exact Hne].
        cbn [snd]. destruct (IH st' Hrp Hle) as [IH1 IH2].
        split; [exact IH1|]. rewrite IH2. rewrite Hrp in Hout. lia. }
  destruct (Hgen k st eq_refl) as [H1 H2]; [lia|].
  split; [exact H1|]. rewrite H2, H0. f_equal. lia.
Qed.

(** The manual route of the control panel: the first [N] ticks walk the
    [N] points in order, one point per tick, each with its predecessor;
    every later tick returns the final point, with the point before it
    (the final point itself when the route has a single point). *)
Theorem ControlPanel_tick_walk_then_hold (st : State) :
  route_points st <> [] -> current_point_index st = 0%nat ->
  let pts := route_points st in
  let tick := ControlPanel.get_next_simulated_location in
  (forall k, (k < length pts)%nat ->
     exists cur prev,
       nth_error pts k = Some cur /\ nth_error pts (k - 1) = Some prev /\
       fst (tick (after k tick st)) = Ok (Some (cur, prev)) /\
       current_point_index (after (S k) tick st) = S k) /\
  (forall k, (length pts <= k)%nat ->
     exists final before,
       nth_error pts (length pts - 1) = Some final /\
       nth_error pts (length pts - 2) = Some before /\
       tick (after k tick st) = (Ok (Some (final, before)), after k tick st)).
Proof.
  intros Hne H0 pts tick. split; intros k Hk.
  - destruct (ControlPanel_after_ticks st k Hne H0) as [Hrp Hidx].
    fold tick in Hrp, Hidx. fold pts in Hrp, Hidx.
    rewrite Nat.min_l in Hidx by lia.
    assert (Hin : (current_point_index (after k tick st)
                   < length (route_points (after k tick st)))%nat)
      by (rewrite Hrp, Hidx; exact Hk).
    destruct (in_range_points _ Hin) as (cur & prev & Hc & Hp).
    exists cur, prev.
    rewrite Hrp, Hidx in Hc, Hp. split; [exact Hc|]. split; [exact Hp|].
    rewrite Hrp, Hidx in Hin. split.
    + unfold tick at 1. rewrite (ControlPanel_tick_inside _ cur prev);
        [reflexivity|rewrite ?Hrp, ?Hidx; assumption..].
    + destruct (ControlPanel_after_ticks st (S k) Hne H0) as [_ Hidx'].
      fold tick in Hidx'. fold pts in Hidx'. rewrite Hidx'. lia.
  - destruct (ControlPanel_after_ticks st k Hne H0) as [Hrp Hidx].
    fold tick in Hrp, Hidx. fold pts in Hrp, Hidx.
    rewrite Nat.min_r in Hidx by lia.
    assert (Hlen : (0 < length pts)%nat).
    { subst pts. destruct (route_points st); [contradiction|simpl; lia]. }
    destruct (nth_error pts (length pts - 1)) as [final|] eqn:Hf;
      [|apply nth_error_None in Hf; lia].
    destruct (nth_error pts (length pts - 2)) as [before|] eqn:Hb;
      [|apply nth_error_None in Hb; lia].
    exists final, before. split; [reflexivity|]. split; [reflexivity|].
    unfold tick at 1. apply ControlPanel_tick_hold; rewrite ?Hrp, ?Hidx;
      try assumption; lia.
Qed.

End Ticking.

(* ===================================================================== *)
(** * The progress tracker: [find_next_signal_on_route] *)
(* ===================================================================== *)

Section Tracking.
Context `{PyMath}.
Variable reg : Registry.
Variables current_lat current_lon : float.

Local Abbreviation body := (find_next_body reg current_lat current_lon).
Local Abbreviation passed := signals_passed_on_current_route.
Local Abbreviation wps := route_signal_waypoints.

Lemma next_not_in_Some (l excluded : list string) (w : string) :
  next_not_in l excluded = Some w -> w ∈ l /\ w ∉ excluded.
Proof.
  induction l as [|x l IH]; simpl; [discriminate|].
  destruct (mem x excluded) eqn:Hm.
  - intros Hn. destruct (IH Hn). split; [now right|assumption].
  - intros [= ->]. split; [now left|now apply mem_false].
Qed.

Lemma next_not_in_None (l excluded : list string) :
  next_not_in l excluded = None <-> forall w, w ∈ l -> w ∈ excluded.
Proof.
  induction l as [|x l IH]; simpl.
  - split; [|reflexivity]. intros _ w Hw. now apply elem_of_nil in Hw.
  - destruct (mem x excluded) eqn:Hm.
    + rewrite IH. apply mem_true in Hm. split.
      * intros Hall w Hw. apply elem_of_cons in Hw as [->|Hw]; auto.
      * intros Hall w Hw. apply Hall. now right.
    + apply mem_false in Hm. split; [discriminate|].
      intros Hall. exfalso. apply Hm, Hall. now left.
Qed.

(** The three outcomes of one iteration. *)
Lemma body_finished (st : State) :
  next_not_in (wps st) (passed st) = None ->
  body st = (Some (current_destination_name st), st).
Proof. intros Hn. unfold find_next_body. now rewrite Hn. Qed.

Lemma body_arrival (st : State) (w : string) :
  next_not_in (wps st) (passed st) = Some w ->
  arrived reg current_lat current_lon w = true ->
  body st = (None, set_signals_passed (passed st ++ [w]) st).
Proof.
  intros Hn Ha. unfold find_next_body. rewrite Hn.
  unfold arrived, distance_to in Ha. cbn zeta in Ha |- *. rewrite Ha.
  apply next_not_in_Some in Hn as [_ Hw]. apply mem_false in Hw.
  now rewrite Hw.
Qed.

Lemma body_not_reached (st : State) (w : string) :
  next_not_in (wps st) (passed st) = Some w ->
  arrived reg current_lat current_lon w = false ->
  body st = (Some w, st).
Proof.
  intros Hn Ha. unfold find_next_body. rewrite Hn.
  unfold arrived, distance_to in Ha. cbn zeta in Ha |- *. now rewrite Ha.
Qed.

Lemma remaining_append (l excluded : list string) (w : string) :
  w ∈ l -> w ∉ excluded ->
  (remaining l (excluded ++ [w]) < remaining l excluded)%nat.
Proof.
  unfold remaining. intros Hin Hex.
  assert (Hmono : forall x, negb (mem x (excluded ++ [w])) = true ->
                            negb (mem x excluded) = true).
  { intros x. rewrite !negb_true_iff, !mem_false.
    intros Hx Hx'. apply Hx. apply elem_of_app. now left. }
  induction l as [|x l IH]; [now apply elem_of_nil in Hin|].
  simpl. destruct (decide (x = w)) as [->|Hne].
  - assert (H1 : mem w (excluded ++ [w]) = true).
    { apply mem_true, elem_of_app. right. now left. }
    assert (H2 : mem w excluded = false) by now apply mem_false.
    rewrite H1, H2. simpl.
    clear IH Hin. apply Nat.lt_succ_r.
    induction l as [|y l IH]; simpl; [lia|].
    destruct (negb (mem y (excluded ++ [w]))) eqn:Hy.
    + rewrite (Hmono y Hy). simpl. lia.
    + destruct (negb (mem y excluded)); simpl; lia.
  - apply elem_of_cons in Hin as [->|Hin]; [contradiction|].
    specialize (IH Hin).
    destruct (negb (mem x (excluded ++ [w]))) eqn:Hx.
    + rewrite (Hmono x Hx). simpl. lia.
    + destruct (negb (mem x excluded)); simpl; lia.
Qed.

Lemma remaining_le (l excluded : list string) :
  (remaining l excluded <= length l)%nat.
Proof. unfold remaining. apply filter_length_le. Qed.

(** The loop returns as soon as it has more fuel than there are waypoints
    left, after at most that many iterations plus one; what it returns is
    described by [arrivals]. *)
Lemma while_true_returns (fuel : nat) (st : State) :
  (remaining (wps st) (passed st) < fuel)%nat ->
  exists name passed' n,
    while_true body fuel st
    = (Some name, set_signals_passed passed' st, n) /\
    (1 <= n <= remaining (wps st) (passed st) + 1)%nat /\
    arrivals reg current_lat current_lon (wps st) (passed st) passed' /\
    (next_not_in (wps st) passed' = None /\ name = current_destination_name st
     \/ next_not_in (wps st) passed' = Some name /\
        arrived reg current_lat current_lon name = false).
Proof.
  revert st. induction fuel as [|fuel IH]; intros st Hfuel; [lia|].
  assert (Hsame : set_signals_passed (passed st) st = st) by now destruct st.
  cbn [while_true].
  destruct (next_not_in (wps st) (passed st)) as [w|] eqn:Hn.
  - destruct (arrived reg current_lat current_lon w) eqn:Ha.
    + rewrite (body_arrival st w Hn Ha).
      pose proof (next_not_in_Some _ _ _ Hn) as [Hin Hex].
      pose proof (remaining_append _ _ _ Hin Hex) as Hdec.
      destruct (IH (set_signals_passed (passed st ++ [w]) st))
        as (name & passed' & n & Hrun & Hn' & Harr & Hres);
        [cbn [route_signal_waypoints signals_passed_on_current_route
              set_signals_passed]; lia|].
      cbn [route_signal_waypoints signals_passed_on_current_route
           set_signals_passed current_destination_name] in Hrun, Hn', Harr, Hres.
      rewrite Hrun. exists name, passed', (S n).
      split; [now destruct st|]. split; [lia|].
      split; [|exact Hres]. now apply (arrivals_next _ _ _ _ _ _ w).
    + rewrite (body_not_reached st w Hn Ha).
      exists w, (passed st), 1%nat. rewrite Hsame.
      split; [reflexivity|]. split; [lia|].
      split; [constructor|]. right. now split.
  - rewrite (body_finished st Hn).
    exists (current_destination_name st), (passed st), 1%nat. rewrite Hsame.
    split; [reflexivity|]. split; [lia|].
    split; [constructor|]. left. now split.
Qed.

Lemma arrivals_spec (l p p' : list string) :
  arrivals reg current_lat current_lon l p p' ->
  exists new,
    p' = p ++ new /\ NoDup new /\
    Forall (fun w => (w ∉ p) /\ w ∈ l /\
                     arrived reg current_lat current_lon w = true) new.
Proof.
  induction 1 as [p|p p' w Hn Ha _ (new & -> & Hnd & Hall)].
  - exists []. rewrite app_nil_r. repeat constructor.
  - apply next_not_in_Some in Hn as [Hin Hex].
    exists (w :: new). split; [now rewrite <- app_assoc|].
    rewrite Forall_forall in Hall. split.
    + apply NoDup_cons. split; [|exact Hnd].
      intros Hw. destruct (Hall w Hw) as (Hnot & _).
      apply Hnot, elem_of_app. right. now left.
    + apply Forall_cons. split; [auto|].
      apply Forall_forall. intros x Hx. destruct (Hall x Hx) as (Hnot & ? & ?).
      split; [|auto]. intros Hp. apply Hnot, elem_of_app. now left.
Qed.

(** A call returns (with the fuel that [find_next_signal_on_route] gives
    its loop), and changes nothing but the passed list. *)
Lemma find_next_returns (st : State) :
  exists name passed',
    find_next_signal_on_route reg current_lat current_lon st
    = (Some name, set_signals_passed passed' st) /\
    arrivals reg current_lat current_lon (wps st) (passed st) passed' /\
    (next_not_in (wps st) passed' = None /\ name = current_destination_name st
     \/ next_not_in (wps st) passed' = Some name /\
        arrived reg current_lat current_lon name = false).
Proof.
  destruct (while_true_returns (S (length (wps st))) st)
    as (name & passed' & n & Hrun & _ & Harr & Hres).
  { pose proof (remaining_le (wps st) (passed st)). lia. }
  exists name, passed'. unfold find_next_signal_on_route. rewrite Hrun. auto.
Qed.






End Tracking.

Section Progress.
Context `{PyMath}.
Variable reg : Registry.

Local Abbreviation passed := signals_passed_on_current_route.
Local Abbreviation wps := route_signal_waypoints.

Lemma call_grows (p : coord) (st : State) :
  exists name new,
    find_next_signal_on_route reg (fst p) (snd p) st
    = (Some name, set_signals_passed (passed st ++ new) st).
Proof.
  destruct (find_next_returns reg (fst p) (snd p) st)
    as (name & passed' & Hcall & Harr & _).
  destruct (arrivals_spec _ _ _ _ _ _ Harr) as (new & -> & _).
  now exists name, new.
Qed.

Lemma call_when_all_passed (p : coord) (st : State) :
  (forall w, w ∈ wps st -> w ∈ passed st) ->
  find_next_signal_on_route reg (fst p) (snd p) st
  = (Some (current_destination_name st), st).
Proof.
  intros Hall. apply next_not_in_None in Hall.
  unfold find_next_signal_on_route. cbn [while_true].
  now rewrite (body_finished reg (fst p) (snd p) st Hall).
Qed.

Lemma after_calls_frame (positions : list coord) (st : State) :
  exists new,
    after_calls reg positions st = set_signals_passed (passed st ++ new) st.
Proof.
  revert st. induction positions as [|p ps IH]; intros st; cbn [after_calls].
  - exists []. rewrite app_nil_r. now destruct st.
  - destruct (call_grows p st) as (name & new & ->). cbn [snd].
    destruct (IH (set_signals_passed (passed st ++ new) st)) as (new' & ->).
    exists (new ++ new'). cbn [signals_passed_on_current_route set_signals_passed].
    rewrite <- app_assoc. now destruct st.
Qed.

(** C6. Over any sequence of calls of [find_next_signal_on_route], at any
    positions: a name that is in the passed list stays in it; and once
    every waypoint of the route is in the passed list, every later call
    returns the destination name of the route. *)
Theorem passed_set_monotone (positions : list coord) (st : State) :
  (forall w, w ∈ passed st -> w ∈ passed (after_calls reg positions st)) /\
  ((forall w, w ∈ wps st -> w ∈ passed st) ->
   forall p,
     fst (find_next_signal_on_route reg (fst p) (snd p)
            (after_calls reg positions st))
     = Some (current_destination_name st)).
Proof.
  destruct (after_calls_frame positions st) as (new & Hafter).
  rewrite Hafter. cbn [signals_passed_on_current_route set_signals_passed].
  split.
  - intros w Hw. apply elem_of_app. now left.
  - intros Hall p. rewrite call_when_all_passed; [reflexivity|].
    cbn [route_signal_waypoints signals_passed_on_current_route
         set_signals_passed].
    intros w Hw. apply elem_of_app. left. now apply Hall.
Qed.

End Progress.

(* ===================================================================== *)
(** * The telemetry endpoint: [get_location] *)
(* ===================================================================== *)

Section Location.
Context `{PyMath}.
Variable reg : Registry.

(** While the cursor is inside the route, [get_location] of the control
    panel answers 200 with the payload of the point under the cursor, its
    predecessor, and the ids of the start, the destination and the next
    waypoint at that point. *)
Lemma ControlPanel_get_location_payload (st : State) (cur prev : coord) :
  (current_point_index st < length (route_points st))%nat ->
  nth_error (route_points st) (current_point_index st) = Some cur ->
  nth_error (route_points st) (current_point_index st - 1) = Some prev ->
  exists name st',
    find_next_signal_on_route reg (fst cur) (snd cur) (advanced st cur prev)
    = (Some name, st') /\
    ControlPanel.get_location reg st
    = (Ok (Text (payload cur prev (id_of reg (current_start_name st))
                   (id_of reg (current_destination_name st)) (id_of reg name))
             200), st').
Proof.
  intros Hi Hc Hp.
  destruct (find_next_returns reg (fst cur) (snd cur) (advanced st cur prev))
    as (name & passed' & Hcall & _).
  exists name, (set_signals_passed passed' (advanced st cur prev)).
  split; [exact Hcall|].
  unfold ControlPanel.get_location, bind.
  rewrite (ControlPanel_tick_inside st cur prev Hi Hc Hp).
  rewrite Hcall. reflexivity.
Qed.

(** With no route selected it answers 500. *)
Lemma ControlPanel_get_location_no_route (st : State) :
  route_points st = [] ->
  ControlPanel.get_location reg st
  = (Ok (Text "error: no route selected" 500), st).
Proof.
  intros Hrp. unfold ControlPanel.get_location,
    ControlPanel.get_next_simulated_location. run_handler.
  now rewrite Hrp.
Qed.

End Location.

(* ===================================================================== *)
(** * The telemetry payload *)
(* ===================================================================== *)

Section Telemetry.

Lemma digit_value_digit (d : Z) : 0 <= d <= 9 -> digit_value (digit d) = d.
Proof.
  intros Hd. unfold digit_value, digit.
  rewrite nat_ascii_embedding by lia. lia.
Qed.

Lemma digits_acc_length (width : nat) (k : Z) (acc : string) :
  String.length (digits_acc width k acc) = (width + String.length acc)%nat.
Proof.
  revert k acc. induction width as [|w IH]; intros k acc; simpl; [reflexivity|].
  rewrite IH. simpl. lia.
Qed.

Lemma decode_push (d : Z) (acc : string) :
  decode (String (digit d) acc)
  = digit_value (digit d) * 10 ^ Z.of_nat (String.length acc) + decode acc.
Proof. reflexivity. Qed.

(** [digits_acc] writes the [width] low digits of [k]. *)
Lemma digits_acc_spec (width : nat) (k : Z) (acc : string) :
  0 <= k < 10 ^ Z.of_nat width -> all_digits acc ->
  all_digits (digits_acc width k acc) /\
  decode (digits_acc width k acc)
  = k * 10 ^ Z.of_nat (String.length acc) + decode acc.
Proof.
  revert k acc. induction width as [|w IH]; intros k acc Hk Hacc.
  - simpl in *. split; [exact Hacc|]. replace k with 0 by lia. lia.
  - cbn [digits_acc].
    assert (Hmod : 0 <= k mod 10 <= 9) by (pose proof (Z.mod_pos_bound k 10); lia).
    assert (Hdiv : 0 <= k / 10 < 10 ^ Z.of_nat w).
    { rewrite Nat2Z.inj_succ, Z.pow_succ_r in Hk by lia.
      split; [apply Z.div_pos; lia|apply Z.div_lt_upper_bound; lia]. }
    destruct (IH (k / 10) (String (digit (k mod 10)) acc) Hdiv) as [Hall Hval].
    { cbn [all_digits]. rewrite digit_value_digit by exact Hmod. auto. }
    split; [exact Hall|]. rewrite Hval, decode_push.
    rewrite digit_value_digit by exact Hmod.
    cbn [String.length]. rewrite Nat2Z.inj_succ, Z.pow_succ_r by lia.
    pose proof (Z.div_mod k 10). nia.
Qed.

(** [str_acc] writes all the digits of [k] when the fuel covers them. *)
Lemma str_acc_spec (fuel : nat) (k : Z) (acc : string) :
  0 <= k < 10 ^ Z.of_nat (S fuel) -> all_digits acc ->
  all_digits (str_acc fuel k acc) /\
  decode (str_acc fuel k acc)
  = k * 10 ^ Z.of_nat (String.length acc) + decode acc.
Proof.
  revert k acc. induction fuel as [|f IH]; intros k acc Hk Hacc.
  - cbn [str_acc]. change (10 ^ Z.of_nat 1) with 10 in Hk.
    rewrite decode_push. cbn [all_digits].
    rewrite Z.mod_small by lia. rewrite digit_value_digit by lia.
    split; [split; [lia|exact Hacc]|reflexivity].
  - cbn [str_acc]. destruct (Z.ltb_spec k 10) as [Hsmall|Hbig].
    + rewrite decode_push. cbn [all_digits].
      rewrite Z.mod_small by lia. rewrite digit_value_digit by lia.
      split; [split; [lia|exact Hacc]|reflexivity].
    + assert (Hmod : 0 <= k mod 10 <= 9)
        by (pose proof (Z.mod_pos_bound k 10); lia).
      assert (Hdiv : 0 <= k / 10 < 10 ^ Z.of_nat (S f)).
      { rewrite (Nat2Z.inj_succ (S f)), Z.pow_succ_r in Hk by lia.
        split; [apply Z.div_pos; lia|apply Z.div_lt_upper_bound; lia]. }
      destruct (IH (k / 10) (String (digit (k mod 10)) acc) Hdiv) as [Hall Hval].
      { cbn [all_digits]. rewrite digit_value_digit by exact Hmod. auto. }
      split; [exact Hall|]. rewrite Hval, decode_push.
      rewrite digit_value_digit by exact Hmod.
      cbn [String.length]. rewrite Nat2Z.inj_succ, Z.pow_succ_r by lia.
      pose proof (Z.div_mod k 10). nia.
Qed.

(** [str(k)] is the decimal numeral of [k]. *)
Lemma str_nonneg_spec (k : Z) :
  0 <= k -> all_digits (str_nonneg k) /\ decode (str_nonneg k) = k.
Proof.
  intros Hk. unfold str_nonneg.
  destruct (str_acc_spec (Z.to_nat (Z.log2 k)) k EmptyString) as [Hall Hval].
  - split; [exact Hk|].
    rewrite Nat2Z.inj_succ, Z2Nat.id by apply Z.log2_nonneg.
    destruct (Z.eq_dec k 0) as [->|Hne]; [reflexivity|].
    destruct (Z.log2_spec k) as [_ Hlt]; [lia|].
    eapply Z.lt_le_trans; [exact Hlt|].
    apply Z.pow_le_mono_l. pose proof (Z.log2_nonneg k). lia.
  - exact I.
  - split; [exact Hall|]. rewrite Hval. simpl. lia.
Qed.

Lemma str_int_spec (k : Z) :
  0 <= k -> all_digits (str_int k) /\ decode (str_int k) = k.
Proof.
  intros Hk. unfold str_int. destruct (Z.ltb_spec k 0); [lia|].
  now apply str_nonneg_spec.
Qed.

Lemma scaled_round_nonneg (m : positive) (e : Z) : 0 <= scaled_round m e.
Proof.
  unfold scaled_round. destruct (Z.leb_spec 0 e) as [He|He].
  - apply Z.mul_nonneg_nonneg; [lia|]. apply Z.pow_nonneg. lia.
  - cbn zeta.
    assert (Hd : 0 < 2 ^ (- e)) by (apply Z.pow_pos_nonneg; lia).
    assert (Hq : 0 <= Z.pos m * 1000000 / 2 ^ (- e)) by (apply Z.div_pos; lia).
    destruct (2 * ((Z.pos m * 1000000) mod 2 ^ (- e)) ?= 2 ^ (- e));
      [destruct (Z.even _)| |]; lia.
Qed.

(** [scaled_round m e] is an integer nearest to [m * 2^e * 10^6]: it is
    that number when [e >= 0], and otherwise it differs from it by at most
    one half. *)
Lemma scaled_round_nearest (m : positive) (e : Z) :
  (0 <= e -> scaled_round m e = Z.pos m * 2 ^ e * 1000000) /\
  (e < 0 ->
   2 * Z.abs (scaled_round m e * 2 ^ (- e) - Z.pos m * 1000000) <= 2 ^ (- e)).
Proof.
  unfold scaled_round. split; intros He.
  - destruct (Z.leb_spec 0 e); lia.
  - destruct (Z.leb_spec 0 e); [lia|]. cbn zeta.
    set (d := 2 ^ (- e)). set (n := Z.pos m * 1000000).
    assert (Hd : 0 < d) by (apply Z.pow_pos_nonneg; lia).
    pose proof (Z.div_mod n d) as Hdm. pose proof (Z.mod_pos_bound n d Hd) as Hr.
    destruct (Z.compare_spec (2 * (n mod d)) d) as [Heq|Hlt|Hgt];
      [destruct (Z.even (n / d))| |]; nia.
Qed.

(** The shape of [f"{x:.6f}"] for a finite, non-zero [x]: an optional
    minus sign, the digits of the integral part, a point, and exactly six
    digits; together they are the numeral of [scaled_round]. *)
Lemma format_6f_shape (x : float) (sgn : bool) (m : positive) (e : Z) :
  Prim2SF x = S754_finite sgn m e ->
  exists ip fp,
    format_6f x
    = String.append (if sgn then "-" else "")
        (String.append ip (String "." fp)) /\
    String.length fp = 6%nat /\ all_digits ip /\ all_digits fp /\
    decode ip * 1000000 + decode fp = scaled_round m e.
Proof.
  intros Hx. unfold format_6f. rewrite Hx. cbn zeta.
  pose proof (scaled_round_nonneg m e) as Hk.
  set (k := scaled_round m e) in *.
  exists (str_nonneg (k / 1000000)), (digits_acc 6 (k mod 1000000) EmptyString).
  split; [reflexivity|]. split; [apply digits_acc_length|].
  destruct (str_nonneg_spec (k / 1000000)) as [Hip Hipv];
    [apply Z.div_pos; lia|].
  destruct (digits_acc_spec 6 (k mod 1000000) EmptyString) as [Hfp Hfpv];
    [apply Z.mod_pos_bound; lia|exact I|].
  split; [exact Hip|]. split; [exact Hfp|].
  rewrite Hipv, Hfpv. simpl. pose proof (Z.div_mod k 1000000). lia.
Qed.

(** C8. The payload of [get_location] is the seven fields separated by
    commas; a finite coordinate is written with exactly six digits after
    the point, as the numeral of the coordinate rounded to the nearest
    millionth (a zero as 0.000000); a non-negative id is written as its
    decimal numeral; and the payload of the specification's example is the
    string it gives. *)
Theorem telemetry_payload_format :
  (forall (current_loc prev_loc : coord) (start_id dest_id next_signal_id : Z),
     payload current_loc prev_loc start_id dest_id next_signal_id
     = String.append (format_6f (fst current_loc)) (String.append ","
        (String.append (format_6f (snd current_loc)) (String.append ","
        (String.append (format_6f (fst prev_loc)) (String.append ","
        (String.append (format_6f (snd prev_loc)) (String.append ","
        (String.append (str_int start_id) (String.append ","
        (String.append (str_int dest_id) (String.append ","
          (str_int next_signal_id))))))))))))) /\
  (forall (x : float) (sgn : bool) (m : positive) (e : Z),
     Prim2SF x = S754_finite sgn m e ->
     exists ip fp,
       format_6f x
       = String.append (if sgn then "-" else "")
           (String.append ip (String "." fp)) /\
       String.length fp = 6%nat /\ all_digits ip /\ all_digits fp /\
       decode ip * 1000000 + decode fp = scaled_round m e /\
       (e < 0 ->
        2 * Z.abs (scaled_round m e * 2 ^ (- e) - Z.pos m * 1000000)
        <= 2 ^ (- e))) /\
  (forall (x : float) (sgn : bool),
     Prim2SF x = S754_zero sgn ->
     format_6f x = String.append (if sgn then "-" else "") "0.000000") /\
  (forall id : Z, 0 <= id -> all_digits (str_int id) /\ decode (str_int id) = id) /\
  payload (22.308300, 73.165200)%float (22.308200, 73.165100)%float 3 7 5
  = "22.308300,73.165200,22.308200,73.165100,3,7,5"%string.
Proof.
  split; [reflexivity|]. split; [|split; [|split; [exact str_int_spec|]]].
  - intros x sgn m e Hx.
    destruct (format_6f_shape x sgn m e Hx) as (ip & fp & H1 & H2 & H3 & H4 & H5).
    exists ip, fp. repeat (split; [assumption|]).
    apply scaled_round_nearest.
  - intros x sgn Hx. unfold format_6f. now rewrite Hx.
  - vm_compute. reflexivity.
Qed.

End Telemetry.

(* ===================================================================== *)
(** * Route activation *)
(* ===================================================================== *)

Section Activation.
Context `{PyMath}.
Variable reg : Registry.

(** When the provider fails, the control panel (both variants) answers
    with status 500 and leaves the route, the cursor, the previous point and
    the passed list as they were.  The two names are another matter: see
    [failed_activation_overwrites_names]. *)
Lemma ControlPanel_failed_activation (get_osrm_route : provider)
    (start_id end_id : Z) (st : State) (start_name end_name : string) :
  (forall a b, truthy (get_osrm_route a b) = None) ->
  get (SIGNAL_ID_TO_NAME reg) start_id = Some start_name ->
  get (SIGNAL_ID_TO_NAME reg) end_id = Some end_name ->
  start_name ∈ keys (SIGNALS reg) -> end_name ∈ keys (SIGNALS reg) ->
  ControlPanel.start_manual_route reg get_osrm_route start_id end_id st
  = (Ok (Json "Error: Could not calculate route." None 500),
     set_current_destination_name end_name
       (set_current_start_name start_name st)) /\
  same_route st
    (snd (ControlPanel.start_manual_route reg get_osrm_route start_id end_id st)).
Proof.
  intros Hfail Hs He Hsin Hein.
  destruct (get_is_Some _ _ Hsin) as [cs Hcs].
  destruct (get_is_Some _ _ Hein) as [ce Hce].
  assert (Hrun : ControlPanel.start_manual_route reg get_osrm_route start_id end_id st
                 = (Ok (Json "Error: Could not calculate route." None 500),
                    set_current_destination_name end_name
                      (set_current_start_name start_name st))).
  { unfold ControlPanel.start_manual_route, getitem. run_handler.
    rewrite Hs, He, Hcs, Hce. cbn beta iota. now rewrite Hfail. }
  split; [exact Hrun|]. rewrite Hrun. repeat split.
Qed.

Lemma VSC_failed_activation (get_osrm_route : provider)
    (start_id end_id : Z) (st : State) (start_name end_name : string) :
  (forall a b, truthy (get_osrm_route a b) = None) ->
  get (SIGNAL_ID_TO_NAME reg) start_id = Some start_name ->
  get (SIGNAL_ID_TO_NAME reg) end_id = Some end_name ->
  start_name ∈ keys (SIGNALS reg) -> end_name ∈ keys (SIGNALS reg) ->
  VSC.start_route reg get_osrm_route start_id end_id st
  = (Ok (Json "OSRM Error" None 500),
     set_current_destination_name end_name
       (set_current_start_name start_name st)) /\
  same_route st (snd (VSC.start_route reg get_osrm_route start_id end_id st)).
Proof.
  intros Hfail Hs He Hsin Hein.
  destruct (get_is_Some _ _ Hsin) as [cs Hcs].
  destruct (get_is_Some _ _ Hein) as [ce Hce].
  assert (Hrun : VSC.start_route reg get_osrm_route start_id end_id st
                 = (Ok (Json "OSRM Error" None 500),
                    set_current_destination_name end_name
                      (set_current_start_name start_name st))).
  { unfold VSC.start_route, getitem. run_handler.
    rewrite Hs, He, Hcs, Hce. cbn beta iota. now rewrite Hfail. }
  split; [exact Hrun|]. rewrite Hrun. repeat split.
Qed.

(** A successful activation of the control panel resets the cursor, the
    previous point and the passed list. *)
Lemma ControlPanel_activation_resets (get_osrm_route : provider)
    (start_id end_id : Z) (st : State) (message : string) (wps : list string) :
  fst (ControlPanel.start_manual_route reg get_osrm_route start_id end_id st)
  = Ok (Json message (Some wps) 200) ->
  let st' :=
    snd (ControlPanel.start_manual_route reg get_osrm_route start_id end_id st) in
  current_point_index st' = 0%nat /\ previous_location st' = None /\
  signals_passed_on_current_route st' = [] /\
  route_signal_waypoints st' = wps.
Proof.
  unfold ControlPanel.start_manual_route, getitem. run_handler.
  destruct (get (SIGNAL_ID_TO_NAME reg) start_id) as [sn|]; [|discriminate].
  cbn beta iota.
  destruct (get (SIGNAL_ID_TO_NAME reg) end_id) as [en|]; [|discriminate].
  cbn beta iota.
  destruct (get (SIGNALS reg) sn) as [cs|]; [|discriminate].
  destruct (get (SIGNALS reg) en) as [ce|]; [|discriminate].
  cbn beta iota.
  destruct (truthy _) as [coords|]; [|discriminate].
  destruct (ControlPanel.find_signals_on_path _ _ _ _) as [ws|]; [|discriminate].
  cbn. intros [= _ ->]. repeat split.
Qed.

(** The activation of the VSC variant never assigns [previous_location]. *)
Lemma VSC_activation_previous_location (get_osrm_route : provider)
    (start_id end_id : Z) (st : State) :
  previous_location (snd (VSC.start_route reg get_osrm_route start_id end_id st))
  = previous_location st.
Proof.
  unfold VSC.start_route, getitem. run_handler.
  destruct (get (SIGNAL_ID_TO_NAME reg) start_id) as [sn|]; [|reflexivity].
  cbn beta iota.
  destruct (get (SIGNAL_ID_TO_NAME reg) end_id) as [en|]; [|reflexivity].
  cbn beta iota.
  destruct (get (SIGNALS reg) sn) as [cs|]; [|reflexivity].
  destruct (get (SIGNALS reg) en) as [ce|]; [|reflexivity].
  cbn beta iota.
  destruct (truthy _) as [coords|]; [|reflexivity].
  destruct (VSC.find_signals_on_path _ _ _ _) as [ws|]; reflexivity.
Qed.

(** A successful activation, in closed form. *)
Lemma ControlPanel_activation_success (get_osrm_route : provider)
    (start_id end_id : Z) (st : State) (start_name end_name : string)
    (cs ce : coord) (coords : list (float * float)) :
  get (SIGNAL_ID_TO_NAME reg) start_id = Some start_name ->
  get (SIGNAL_ID_TO_NAME reg) end_id = Some end_name ->
  get (SIGNALS reg) start_name = Some cs ->
  get (SIGNALS reg) end_name = Some ce ->
  truthy (get_osrm_route (snd cs, fst cs) (snd ce, fst ce)) = Some coords ->
  exists wps,
    ControlPanel.find_signals_on_path reg (swap_all coords) start_name end_name
    = Ok wps /\
    ControlPanel.start_manual_route reg get_osrm_route start_id end_id st
    = (Ok (Json "Simulation started successfully!" (Some wps) 200),
       mkState (swap_all coords) wps 0%nat None start_name end_name []).
Proof.
  intros Hs He Hcs Hce Hok.
  assert (Hfind : exists wps,
             ControlPanel.find_signals_on_path reg (swap_all coords)
               start_name end_name = Ok wps).
  { unfold ControlPanel.find_signals_on_path, getitem. rewrite Hcs.
    eexists. reflexivity. }
  destruct Hfind as [wps Hfind]. exists wps. split; [exact Hfind|].
  unfold ControlPanel.start_manual_route, getitem. run_handler.
  rewrite Hs, He, Hcs, Hce. cbn beta iota. rewrite Hok. cbn beta iota.
  rewrite Hfind. reflexivity.
Qed.

Lemma VSC_activation_success (get_osrm_route : provider)
    (start_id end_id : Z) (st : State) (start_name end_name : string)
    (cs ce : coord) (coords : list (float * float)) :
  get (SIGNAL_ID_TO_NAME reg) start_id = Some start_name ->
  get (SIGNAL_ID_TO_NAME reg) end_id = Some end_name ->
  get (SIGNALS reg) start_name = Some cs ->
  get (SIGNALS reg) end_name = Some ce ->
  truthy (get_osrm_route (snd cs, fst cs) (snd ce, fst ce)) = Some coords ->
  exists wps,
    VSC.find_signals_on_path reg (swap_all coords) start_name end_name = Ok wps /\
    VSC.start_route reg get_osrm_route start_id end_id st
    = (Ok (Json "Started" (Some wps) 200),
       mkState (swap_all coords) wps 0%nat (previous_location st)
         start_name end_name []).
Proof.
  intros Hs He Hcs Hce Hok.
  assert (Hfind : exists wps,
             VSC.find_signals_on_path reg (swap_all coords)
               start_name end_name = Ok wps).
  { unfold VSC.find_signals_on_path, getitem. rewrite Hcs.
    eexists. reflexivity. }
  destruct Hfind as [wps Hfind]. exists wps. split; [exact Hfind|].
  unfold VSC.start_route, getitem. run_handler.
  rewrite Hs, He, Hcs, Hce. cbn beta iota. rewrite Hok. cbn beta iota.
  rewrite Hfind. reflexivity.
Qed.

(** A draw from a pool that is not empty activates a route of the pool and
    resets the cursor, the previous point and the passed list. *)
Lemma SimulationServer_select_resets (pool : list Route) (draw : nat)
    (st : State) :
  pool <> [] ->
  exists r,
    r ∈ pool /\
    SimulationServer.select_new_route pool draw st
    = (Ok true,
       mkState (points r) (waypoints r) 0%nat None (start r) (end_ r) []).
Proof.
  intros Hne. unfold SimulationServer.select_new_route.
  destruct pool as [|first rest]; [contradiction|].
  set (pool := first :: rest).
  exists (nth (draw mod length pool) pool first). split.
  - apply list_elem_of_In, nth_In. apply Nat.mod_upper_bound. discriminate.
  - reflexivity.
Qed.

End Activation.

(** C1. The activation of a route is not all-or-nothing in the code.  In the
    state [ticked_state], where the route from "Chakli Circle" to
    "Diwalipura Circle" is active, a request for the route from id 5 to id 9
    that the provider fails to answer gets status 500 and leaves the points,
    the waypoints, the cursor and the passed list alone, but the recorded
    start and destination names are now "Gotri Circle" and "Nilamber Circle",
    in both variants of the control panel. *)
Theorem failed_activation_overwrites_names (PM : PyMath) :
  ControlPanel.start_manual_route control_panel_registry refusing 5 9 ticked_state
  = (Ok (Json "Error: Could not calculate route." None 500),
     mkState (route_points ticked_state) (route_signal_waypoints ticked_state)
       (current_point_index ticked_state) (previous_location ticked_state)
       "Gotri Circle" "Nilamber Circle"
       (signals_passed_on_current_route ticked_state)) /\
  VSC.start_route control_panel_registry refusing 5 9 ticked_state
  = (Ok (Json "OSRM Error" None 500),
     mkState (route_points ticked_state) (route_signal_waypoints ticked_state)
       (current_point_index ticked_state) (previous_location ticked_state)
       "Gotri Circle" "Nilamber Circle"
       (signals_passed_on_current_route ticked_state)) /\
  current_start_name ticked_state = "Chakli Circle"%string /\
  current_destination_name ticked_state = "Diwalipura Circle"%string.
Proof. repeat split. Qed.

(** C3. Past the end of a manual route the VSC variant does not hold the
    final point.  On the fresh route [single_point_state] the first tick
    returns the point in both variants; the second tick returns the point
    again in the control panel, and [(None, None)] in the VSC variant, whose
    [get_location] answers "error: no route selected" to it. *)
Theorem VSC_tick_past_end_is_empty :
  fst (VSC.get_next_simulated_location single_point_state)
  = Ok (Some ((22.308333, 73.165278), (22.308333, 73.165278))%float) /\
  fst (VSC.get_next_simulated_location
         (after 1 VSC.get_next_simulated_location single_point_state))
  = Ok None /\
  fst (ControlPanel.get_next_simulated_location
         (after 1 ControlPanel.get_next_simulated_location single_point_state))
  = Ok (Some ((22.308333, 73.165278), (22.308333, 73.165278))%float).
Proof. repeat split. Qed.

(** C4. The activation of the VSC variant does not reset the previous
    point: [start_route] never assigns [previous_location].  From
    [ticked_state], whose previous point is the first point of the old
    route, a successful activation of the route from id 1 to id 2 resets the
    cursor and the passed list but leaves that previous point in place; the
    control panel's [start_manual_route] makes it [None] on the same
    request. *)
Theorem VSC_activation_keeps_previous_location (PM : PyMath) :
  (forall (reg : Registry) (get_osrm_route : provider) (start_id end_id : Z)
          (st : State),
     previous_location
       (snd (VSC.start_route reg get_osrm_route start_id end_id st))
     = previous_location st) /\
  (exists wps st',
     VSC.start_route control_panel_registry straight 1 2 ticked_state
     = (Ok (Json "Started" (Some wps) 200), st') /\
     current_point_index st' = 0%nat /\
     signals_passed_on_current_route st' = [] /\
     previous_location st' = Some (22.308333, 73.165278)%float) /\
  (exists wps st',
     ControlPanel.start_manual_route control_panel_registry straight 1 2
       ticked_state
     = (Ok (Json "Simulation started successfully!" (Some wps) 200), st') /\
     current_point_index st' = 0%nat /\
     signals_passed_on_current_route st' = [] /\
     previous_location st' = None).
Proof.
  split; [intros; apply VSC_activation_previous_location|]. split.
  - destruct (VSC_activation_success control_panel_registry straight 1 2
                ticked_state "Chakli Circle" "Diwalipura Circle"
                (22.308333, 73.165278)%float (22.301806, 73.165500)%float
                [(73.165278, 22.308333); (73.165500, 22.301806)]%float)
      as (wps & _ & Hrun); try reflexivity.
    rewrite Hrun. eexists. eexists. split; [reflexivity|]. repeat split.
  - destruct (ControlPanel_activation_success control_panel_registry straight
                1 2 ticked_state "Chakli Circle" "Diwalipura Circle"
                (22.308333, 73.165278)%float (22.301806, 73.165500)%float
                [(73.165278, 22.308333); (73.165500, 22.301806)]%float)
      as (wps & _ & Hrun); try reflexivity.
    rewrite Hrun. eexists. eexists. split; [reflexivity|]. repeat split.
Qed.

(* ===================================================================== *)
(** * The servers on concrete inputs *)
(* ===================================================================== *)

Section Instances.

Lemma KNOWN_SIGNALS_is_dict : NoDup (keys KNOWN_SIGNALS).
Proof. apply (bool_decide_unpack _). vm_compute. exact I. Qed.


Lemma keys_rev {V} (d : dict string V) (n : string) :
  n ∈ keys d <-> n ∈ keys (rev d).
Proof.
  unfold keys. rewrite map_rev. now rewrite <- Permutation_rev.
Qed.

Lemma keys_rev_NoDup {V} (d : dict string V) :
  NoDup (keys d) -> NoDup (keys (rev d)).
Proof. unfold keys. rewrite map_rev. now rewrite <- Permutation_rev. Qed.

(** The end-to-end scenario of the specification, on the control panel with
    the reference [math]: the sequence is A, B, C; the first tick returns
    the first point twice; the next waypoint at that point is B, and A is
    marked passed. *)
Example scenario_sequence :
  @ControlPanel.find_signals_on_path TaylorMath.math ABC_registry ABC_path
    "A" "C"
  = Ok [ "A"; "B"; "C" ]%string.
Proof. vm_compute. reflexivity. Qed.

Example scenario_first_tick :
  fst (ControlPanel.get_next_simulated_location ABC_state)
  = Ok (Some ((0, 0), (0, 0))%float).
Proof. reflexivity. Qed.

Example scenario_next_waypoint :
  @find_next_signal_on_route TaylorMath.math ABC_registry 0 0
    (snd (ControlPanel.get_next_simulated_location ABC_state))
  = (Some "B"%string,
     mkState ABC_path [ "A"; "B"; "C" ]%string 1%nat (Some (0, 0)%float)
       "A" "C" [ "A"%string ]).
Proof. vm_compute. reflexivity. Qed.

Example scenario_get_location :
  fst (@ControlPanel.get_location TaylorMath.math ABC_registry ABC_state)
  = Ok (Text "0.000000,0.000000,0.000000,0.000000,1,3,2" 200).
Proof. vm_compute. reflexivity. Qed.

(** The ids of the control panel's signals. *)
Example control_panel_ids :
  id_of control_panel_registry "Chakli Circle" = 1 /\
  id_of control_panel_registry "Gotri Circle" = 5 /\
  id_of control_panel_registry "Tandalja SP T-Junction (Natubhai Circle)" = 10 /\
  id_of control_panel_registry "" = 0.
Proof. repeat split. Qed.

End Instances.


(** The hypotheses of [signal_ids_deterministic] hold for the control
    panel's signals listed in their order and in the reverse order. *)
Lemma signal_ids_deterministic_witness :
  NoDup (keys KNOWN_SIGNALS) /\ NoDup (keys (rev KNOWN_SIGNALS)) /\
  (numbered_ascending KNOWN_SIGNALS (setup_signal_data KNOWN_SIGNALS) /\
   SIGNAL_NAME_TO_ID (setup_signal_data KNOWN_SIGNALS)
   = SIGNAL_NAME_TO_ID (setup_signal_data (rev KNOWN_SIGNALS)) /\
   SIGNAL_ID_TO_NAME (setup_signal_data KNOWN_SIGNALS)
   = SIGNAL_ID_TO_NAME (setup_signal_data (rev KNOWN_SIGNALS)) /\
   forall cA cB : coord,
     id_of (setup_signal_data [("B"%string, cB); ("A"%string, cA)]) "A" = 1 /\
     id_of (setup_signal_data [("B"%string, cB); ("A"%string, cA)]) "B" = 2).
Proof.
  split; [exact KNOWN_SIGNALS_is_dict|].
  split; [exact (keys_rev_NoDup KNOWN_SIGNALS KNOWN_SIGNALS_is_dict)|].
  exact (signal_ids_deterministic KNOWN_SIGNALS (rev KNOWN_SIGNALS)
           KNOWN_SIGNALS_is_dict
           (keys_rev_NoDup KNOWN_SIGNALS KNOWN_SIGNALS_is_dict)
           (keys_rev KNOWN_SIGNALS)).
Defined.


(* ===================================================================== *)
(** * Further properties of the registry *)
(* ===================================================================== *)

Section RegistryRoundTrip.

Lemma elem_enumerate {A} (s : Z) (l : list A) (i : Z) (x : A) :
  (i, x) ∈ enumerate_from s l ->
  exists n : nat, i = Z.of_nat n + s /\ nth_error l n = Some x.
Proof.
  revert s. induction l as [|y l IH]; intros s Hin; cbn [enumerate_from] in Hin.
  - now apply elem_of_nil in Hin.
  - apply elem_of_cons in Hin as [[= -> ->]|Hin].
    + exists 0%nat. split; [lia|reflexivity].
    + destruct (IH _ Hin) as (n & -> & Hn).
      exists (S n). split; [lia|exact Hn].
Qed.

Lemma nth_error_of_elem {A} (l : list A) (x : A) :
  x ∈ l -> exists n, nth_error l n = Some x.
Proof. intros Hx. apply In_nth_error. now apply list_elem_of_In. Qed.

Lemma nth_error_bound {A} (l : list A) (n : nat) (x : A) :
  nth_error l n = Some x -> (n < length l)%nat /\ x ∈ l.
Proof.
  intros Hn. split.
  - apply nth_error_Some. congruence.
  - apply list_elem_of_In. eapply nth_error_In, Hn.
Qed.

(** The two id tables in terms of positions in the sorted list of names. *)
Lemma id_tables_positions (K : dict string coord) (name : string) (i : Z) :
  NoDup (keys K) ->
  (get (SIGNAL_NAME_TO_ID (setup_signal_data K)) name = Some i <->
   exists n : nat, i = Z.of_nat n + 1 /\ nth_error (sorted (keys K)) n = Some name) /\
  (get (SIGNAL_ID_TO_NAME (setup_signal_data K)) i = Some name <->
   exists n : nat, i = Z.of_nat n + 1 /\ nth_error (sorted (keys K)) n = Some name).
Proof.
  intros Hnd. destruct (setup_signal_data_tables K Hnd) as [-> ->].
  assert (Hnd' : NoDup (sorted (keys K))) by (now rewrite sorted_perm).
  split; split.
  - intros Hg. apply get_Some_elem in Hg.
    apply list_elem_of_fmap in Hg as ([i' x] & [= -> ->] & Hin).
    now apply elem_enumerate in Hin.
  - intros (n & -> & Hn). now apply get_enumerate_inverse.
  - intros Hg. apply get_Some_elem in Hg. now apply elem_enumerate in Hg.
  - intros (n & -> & Hn). now apply get_enumerate.
Qed.

Lemma sorted_length (l : list string) : length (sorted l) = length l.
Proof. apply Permutation_length, sorted_perm. Qed.

(** X1. The two id tables of a registry are inverse to each other, the ids
    are exactly the numbers from 1 to the number of signals, and the
    sentinel 0 of [SIGNAL_NAME_TO_ID.get(name, 0)] is returned for the
    names that are not registered and for no other name. *)
Theorem registry_ids_round_trip (K : dict string coord) :
  NoDup (keys K) ->
  (forall (name : string) (i : Z),
     get (SIGNAL_NAME_TO_ID (setup_signal_data K)) name = Some i <->
     get (SIGNAL_ID_TO_NAME (setup_signal_data K)) i = Some name) /\
  (forall (name : string) (i : Z),
     get (SIGNAL_ID_TO_NAME (setup_signal_data K)) i = Some name ->
     1 <= i <= Z.of_nat (length K) /\ name ∈ keys K) /\
  (forall i : Z,
     1 <= i <= Z.of_nat (length K) ->
     exists name, get (SIGNAL_ID_TO_NAME (setup_signal_data K)) i = Some name) /\
  (forall name : string,
     id_of (setup_signal_data K) name = 0 <-> name ∉ keys K).
Proof.
  intros Hnd.
  assert (Hlen : length (sorted (keys K)) = length K).
  { rewrite sorted_length. unfold keys. apply length_map. }
  split; [|split; [|split]].
  - intros name i.
    destruct (id_tables_positions K name i Hnd) as [H1 H2].
    rewrite H1, H2. reflexivity.
  - intros name i Hg.
    apply (id_tables_positions K name i Hnd) in Hg as (n & -> & Hn).
    apply nth_error_bound in Hn as [Hlt Hin].
    rewrite sorted_perm in Hin. split; [lia|exact Hin].
  - intros i Hi.
    destruct (nth_error (sorted (keys K)) (Z.to_nat (i - 1))) as [name|] eqn:Hn.
    + exists name. apply (id_tables_positions K name i Hnd).
      exists (Z.to_nat (i - 1)). split; [lia|exact Hn].
    + apply nth_error_None in Hn. lia.
  - intros name. unfold id_of, get_default.
    destruct (get (SIGNAL_NAME_TO_ID (setup_signal_data K)) name) as [i|] eqn:Hg.
    + apply (id_tables_positions K name i Hnd) in Hg as (n & -> & Hn).
      apply nth_error_bound in Hn as [_ Hin]. rewrite sorted_perm in Hin.
      split; [lia|]. intros Hnot. contradiction.
    + split; [intros _|reflexivity]. intros Hin.
      rewrite <- sorted_perm in Hin.
      destruct (nth_error_of_elem _ _ Hin) as [n Hn].
      assert (Hsome : get (SIGNAL_NAME_TO_ID (setup_signal_data K)) name
                      = Some (Z.of_nat n + 1)).
      { apply (id_tables_positions K name _ Hnd). now exists n. }
      congruence.
Qed.

End RegistryRoundTrip.

Lemma registry_ids_round_trip_witness :
  NoDup (keys KNOWN_SIGNALS) /\
  ((forall (name : string) (i : Z),
      get (SIGNAL_NAME_TO_ID (setup_signal_data KNOWN_SIGNALS)) name = Some i <->
      get (SIGNAL_ID_TO_NAME (setup_signal_data KNOWN_SIGNALS)) i = Some name) /\
   (forall (name : string) (i : Z),
      get (SIGNAL_ID_TO_NAME (setup_signal_data KNOWN_SIGNALS)) i = Some name ->
      1 <= i <= Z.of_nat (length KNOWN_SIGNALS) /\ name ∈ keys KNOWN_SIGNALS) /\
   (forall i : Z,
      1 <= i <= Z.of_nat (length KNOWN_SIGNALS) ->
      exists name,
        get (SIGNAL_ID_TO_NAME (setup_signal_data KNOWN_SIGNALS)) i = Some name) /\
   (forall name : string,
      id_of (setup_signal_data KNOWN_SIGNALS) name = 0 <->
      name ∉ keys KNOWN_SIGNALS)).
Proof.
  split; [exact KNOWN_SIGNALS_is_dict|].
  exact (registry_ids_round_trip KNOWN_SIGNALS KNOWN_SIGNALS_is_dict).
Defined.

(* ===================================================================== *)
(** * Further properties of route activation *)
(* ===================================================================== *)

Section ActivationErrors.
Context `{PyMath}.
Variable reg : Registry.

(** X2. An id that is not in [SIGNAL_ID_TO_NAME] makes the activation raise
    [KeyError], in both variants of the control panel.  With an unknown
    start id the state is untouched; with a known start id and an unknown
    end id the start name has already been overwritten, and nothing else. *)
Theorem activation_unknown_id (get_osrm_route : provider)
    (start_id end_id : Z) (st : State) :
  (get (SIGNAL_ID_TO_NAME reg) start_id = None ->
   ControlPanel.start_manual_route reg get_osrm_route start_id end_id st
   = (Raise KeyError, st) /\
   VSC.start_route reg get_osrm_route start_id end_id st = (Raise KeyError, st)) /\
  (forall start_name,
     get (SIGNAL_ID_TO_NAME reg) start_id = Some start_name ->
     get (SIGNAL_ID_TO_NAME reg) end_id = None ->
     ControlPanel.start_manual_route reg get_osrm_route start_id end_id st
     = (Raise KeyError, set_current_start_name start_name st) /\
     VSC.start_route reg get_osrm_route start_id end_id st
     = (Raise KeyError, set_current_start_name start_name st)).
Proof.
  split.
  - intros Hs. unfold ControlPanel.start_manual_route, VSC.start_route, getitem.
    run_handler. rewrite Hs. split; reflexivity.
  - intros start_name Hs He.
    unfold ControlPanel.start_manual_route, VSC.start_route, getitem.
    run_handler. rewrite Hs. cbn beta iota. rewrite He. split; reflexivity.
Qed.

End ActivationErrors.

Section ActivationSuccess.
Context `{PyMath}.
Variable K : dict string coord.
Hypothesis K_is_dict : NoDup (keys K).



End ActivationSuccess.

Lemma activation_unknown_id_witness :
  @ControlPanel.start_manual_route TaylorMath.math control_panel_registry
    straight 0 1 ticked_state
  = (Raise KeyError, ticked_state) /\
  @ControlPanel.start_manual_route TaylorMath.math control_panel_registry
    straight 2 11 ticked_state
  = (Raise KeyError, set_current_start_name "Diwalipura Circle" ticked_state).
Proof.
  split.
  - exact (proj1 (proj1 (@activation_unknown_id TaylorMath.math
                            control_panel_registry straight 0 1 ticked_state)
                    eq_refl)).
  - exact (proj1 (proj2 (@activation_unknown_id TaylorMath.math
                            control_panel_registry straight 2 11 ticked_state)
                    "Diwalipura Circle"%string eq_refl eq_refl)).
Defined.


(* ===================================================================== *)
(** * Further properties of the progress tracker *)
(* ===================================================================== *)

Section TrackerOrder.
Context `{PyMath}.
Variable reg : Registry.

Local Abbreviation passed := signals_passed_on_current_route.
Local Abbreviation wps := route_signal_waypoints.









End TrackerOrder.



(* ===================================================================== *)
(** * Further properties of the telemetry endpoint *)
(* ===================================================================== *)

Section LocationPolling.
Context `{PyMath}.
Variable reg : Registry.





End LocationPolling.


(* ===================================================================== *)
(** * The tracker and the endpoint of the VSC variant *)
(* ===================================================================== *)

Section VSCTracker.
Context `{PyMath}.
Variable reg : Registry.
Variables curr_lat curr_lon : float.

Local Abbreviation passed := signals_passed_on_current_route.
Local Abbreviation wps := route_signal_waypoints.

Lemma registered_get_default (w : string) :
  w ∈ keys (SIGNALS reg) ->
  exists c, get (SIGNALS reg) w = Some c /\
            get_default (SIGNALS reg) w (0%float, 0%float) = c.
Proof.
  intros Hin. destruct (get_is_Some _ _ Hin) as [c Hc].
  exists c. split; [exact Hc|]. unfold get_default. now rewrite Hc.
Qed.

Lemma unregistered_get (w : string) :
  w ∉ keys (SIGNALS reg) -> get (SIGNALS reg) w = None.
Proof.
  intros Hnot. destruct (get (SIGNALS reg) w) as [c|] eqn:Hg; [|reflexivity].
  exfalso. apply Hnot. apply get_Some_elem in Hg.
  apply list_elem_of_fmap. now exists (w, c).
Qed.

(** An iteration of the VSC loop is the iteration of the control panel's
    loop as long as the waypoint it examines is registered. *)
Lemma VSC_body_registered (st : State) :
  (forall w, next_not_in (wps st) (passed st) = Some w ->
             w ∈ keys (SIGNALS reg)) ->
  VSC.find_next_body reg curr_lat curr_lon st
  = (option_map Ok (fst (find_next_body reg curr_lat curr_lon st)),
     snd (find_next_body reg curr_lat curr_lon st)).
Proof.
  intros Hreg. unfold VSC.find_next_body, find_next_body.
  destruct (next_not_in (wps st) (passed st)) as [w|] eqn:Hn; [|reflexivity].
  destruct (registered_get_default w (Hreg w eq_refl)) as (c & Hc & Hd).
  unfold getitem. rewrite Hc, Hd. cbn zeta.
  destruct (PrimFloat.ltb _ _); [|reflexivity].
  destruct (mem w (passed st)); reflexivity.
Qed.

Lemma VSC_body_unregistered (st : State) (w : string) :
  next_not_in (wps st) (passed st) = Some w -> w ∉ keys (SIGNALS reg) ->
  VSC.find_next_body reg curr_lat curr_lon st = (Some (Raise KeyError), st).
Proof.
  intros Hn Hnot. unfold VSC.find_next_body, getitem.
  now rewrite Hn, (unregistered_get w Hnot).
Qed.

Lemma body_keeps_waypoints (st : State) :
  wps (snd (find_next_body reg curr_lat curr_lon st)) = wps st.
Proof.
  unfold find_next_body.
  destruct (next_not_in (wps st) (passed st)) as [w|]; [|reflexivity].
  cbn zeta. destruct (PrimFloat.ltb _ _); [|reflexivity].
  destruct (mem w (passed st)); reflexivity.
Qed.

Lemma VSC_loop_registered (fuel : nat) (st : State) :
  (forall w, w ∈ wps st -> w ∈ keys (SIGNALS reg)) ->
  while_true (VSC.find_next_body reg curr_lat curr_lon) fuel st
  = (option_map Ok
       (fst (fst (while_true (find_next_body reg curr_lat curr_lon) fuel st))),
     snd (fst (while_true (find_next_body reg curr_lat curr_lon) fuel st)),
     snd (while_true (find_next_body reg curr_lat curr_lon) fuel st)).
Proof.
  revert st. induction fuel as [|fuel IH]; intros st Hreg; [reflexivity|].
  cbn [while_true]. rewrite VSC_body_registered.
  - pose proof (body_keeps_waypoints st) as Hw.
    destruct (find_next_body reg curr_lat curr_lon st) as [[name|] st'];
      cbn [fst snd option_map] in *; [reflexivity|].
    rewrite IH by (now rewrite Hw).
    destruct (while_true (find_next_body reg curr_lat curr_lon) fuel st')
      as [[r s] n]. reflexivity.
  - intros w Hn. apply Hreg. now apply next_not_in_Some in Hn.
Qed.


(** X7. On a route whose waypoints are all signals of the registry, the
    tracker of the VSC variant, which reads [SIGNALS[next_sig]], returns the
    name that the control panel's tracker returns and leaves the state that
    it leaves: the two differ only on waypoints that are not registered. *)
Theorem VSC_tracker_agrees (st : State) :
  (forall w, w ∈ wps st -> w ∈ keys (SIGNALS reg)) ->
  VSC.find_next_signal_on_route reg curr_lat curr_lon st
  = (option_map Ok
       (fst (find_next_signal_on_route reg curr_lat curr_lon st)),
     snd (find_next_signal_on_route reg curr_lat curr_lon st)).
Proof.
  intros Hreg. unfold VSC.find_next_signal_on_route, find_next_signal_on_route.
  now rewrite (VSC_loop_registered _ st Hreg).
Qed.



End VSCTracker.

Section VSCLocation.
Context `{PyMath}.
Variable reg : Registry.


(** X9. The two ways in which [/location] of the VSC variant fails.  With
    no route, or with the cursor at the end of the route, it answers
    "error: no route selected" with status 500 and changes nothing.  Inside
    the route, when the first waypoint not passed is not in [SIGNALS], it
    raises [KeyError] after the point has been consumed: the cursor has
    moved and the previous point is recorded. *)
Theorem VSC_location_failures (st : State) :
  ((length (route_points st) <= current_point_index st)%nat ->
   VSC.get_location reg st = (Ok (Text "error: no route selected" 500), st)) /\
  (forall cur prev w,
     (current_point_index st < length (route_points st))%nat ->
     nth_error (route_points st) (current_point_index st) = Some cur ->
     nth_error (route_points st) (current_point_index st - 1) = Some prev ->
     next_not_in (route_signal_waypoints st)
       (signals_passed_on_current_route st) = Some w ->
     w ∉ keys (SIGNALS reg) ->
     VSC.get_location reg st = (Raise KeyError, advanced st cur prev)).
Proof.
  split.
  - intros Hend. unfold VSC.get_location, bind.
    now rewrite (VSC_tick_past_end st Hend).
  - intros cur prev w Hi Hc Hp Hn Hnot. unfold VSC.get_location, bind.
    rewrite (VSC_tick_inside st cur prev Hi Hc Hp).
    unfold VSC.find_next_signal_on_route. cbn [while_true].
    rewrite (VSC_body_unregistered reg (fst cur) (snd cur)
               (advanced st cur prev) w Hn Hnot).
    reflexivity.
Qed.

End VSCLocation.

Lemma VSC_tracker_agrees_witness :
  (forall w, w ∈ route_signal_waypoints ABC_state ->
             w ∈ keys (SIGNALS ABC_registry)) /\
  @VSC.find_next_signal_on_route TaylorMath.math ABC_registry 0 0 ABC_state
  = (option_map Ok
       (fst (@find_next_signal_on_route TaylorMath.math ABC_registry 0 0
               ABC_state)),
     snd (@find_next_signal_on_route TaylorMath.math ABC_registry 0 0 ABC_state)).
Proof.
  assert (Hreg : forall w, w ∈ route_signal_waypoints ABC_state ->
                           w ∈ keys (SIGNALS ABC_registry)).
  { intros w Hw. exact Hw. }
  split; [exact Hreg|].
  exact (@VSC_tracker_agrees TaylorMath.math ABC_registry 0 0 ABC_state Hreg).
Defined.

Lemma VSC_location_failures_witness :
  @VSC.get_location TaylorMath.math control_panel_registry
    (set_current_point_index 2 ghost_state)
  = (Ok (Text "error: no route selected" 500),
     set_current_point_index 2 ghost_state) /\
  @VSC.get_location TaylorMath.math control_panel_registry ghost_state
  = (Raise KeyError,
     advanced ghost_state (22.308333, 73.165278)%float
       (22.308333, 73.165278)%float).
Proof.
  assert (Hnot : "Ghost"%string ∉ keys (SIGNALS control_panel_registry)).
  { apply (bool_decide_unpack _). vm_compute. exact I. }
  assert (Hend : (length (route_points (set_current_point_index 2 ghost_state))
                  <= current_point_index (set_current_point_index 2 ghost_state))%nat)
    by (simpl; lia).
  assert (Hin : (current_point_index ghost_state
                 < length (route_points ghost_state))%nat) by (simpl; lia).
  split.
  - exact (proj1 (@VSC_location_failures TaylorMath.math control_panel_registry
                    (set_current_point_index 2 ghost_state)) Hend).
  - exact (proj2 (@VSC_location_failures TaylorMath.math control_panel_registry
                    ghost_state)
             (22.308333, 73.165278)%float (22.308333, 73.165278)%float "Ghost"%string
             Hin eq_refl eq_refl eq_refl Hnot).
Defined.

(* ===================================================================== *)
(** * The fields of the payload *)
(* ===================================================================== *)

Section PayloadFields.

Local Abbreviation comma := ("," : ascii).

Lemma count_char_append (c : ascii) (s1 s2 : string) :
  count_char c (String.append s1 s2) = (count_char c s1 + count_char c s2)%nat.
Proof.
  induction s1 as [|c1 s1 IH]; simpl; [reflexivity|].
  rewrite IH. lia.
Qed.

Lemma digit_not_comma (k : Z) : Ascii.eqb comma (digit (k mod 10)) = false.
Proof.
  apply Ascii.eqb_neq. intros Heq.
  assert (Hmod : 0 <= k mod 10 <= 9) by (pose proof (Z.mod_pos_bound k 10); lia).
  pose proof (digit_value_digit (k mod 10) Hmod) as Hv.
  rewrite <- Heq in Hv. change (digit_value comma) with (-4) in Hv. lia.
Qed.

Lemma digits_acc_commas (width : nat) (k : Z) (acc : string) :
  count_char comma (digits_acc width k acc) = count_char comma acc.
Proof.
  revert k acc. induction width as [|w IH]; intros k acc; cbn [digits_acc];
    [reflexivity|].
  rewrite IH. cbn [count_char]. now rewrite digit_not_comma.
Qed.

Lemma str_acc_commas (fuel : nat) (k : Z) (acc : string) :
  count_char comma (str_acc fuel k acc) = count_char comma acc.
Proof.
  revert k acc. induction fuel as [|f IH]; intros k acc; cbn [str_acc].
  - cbn [count_char]. now rewrite digit_not_comma.
  - destruct (k <? 10).
    + cbn [count_char]. now rewrite digit_not_comma.
    + rewrite IH. cbn [count_char]. now rewrite digit_not_comma.
Qed.

Lemma str_int_commas (k : Z) : count_char comma (str_int k) = 0%nat.
Proof.
  unfold str_int, str_nonneg. destruct (k <? 0); cbn [count_char];
    now rewrite str_acc_commas.
Qed.

Lemma format_6f_commas (x : float) : count_char comma (format_6f x) = 0%nat.
Proof.
  unfold format_6f. destruct (Prim2SF x) as [s|s| |s m e].
  - now destruct s.
  - now destruct s.
  - reflexivity.
  - cbn zeta. rewrite !count_char_append. cbn [count_char].
    unfold str_nonneg. rewrite str_acc_commas, digits_acc_commas.
    now destruct s.
Qed.

(** X10. The payload of [/location] has exactly six commas, whatever the
    coordinates (not-a-number and the infinities included) and whatever the
    ids: no field contains a comma, so that splitting the payload at the
    commas gives back its seven fields. *)
Theorem payload_has_seven_fields (current_loc prev_loc : coord)
    (start_id dest_id next_signal_id : Z) :
  count_char "," (payload current_loc prev_loc start_id dest_id next_signal_id)
  = 6%nat /\
  Forall (fun field => count_char "," field = 0%nat)
    [format_6f (fst current_loc); format_6f (snd current_loc);
     format_6f (fst prev_loc); format_6f (snd prev_loc);
     str_int start_id; str_int dest_id; str_int next_signal_id].
Proof.
  split.
  - unfold payload, join_comma. cbn [String.concat].
    rewrite !count_char_append. cbn [count_char].
    rewrite !format_6f_commas, !str_int_commas. reflexivity.
  - repeat constructor; apply format_6f_commas || apply str_int_commas.
Qed.

End PayloadFields.

(* ===================================================================== *)
(** * The order of the waypoints *)
(* ===================================================================== *)

Section FloatOrder.






End FloatOrder.

Section SortedByKey.
Context {A : Type}.
Variable key : A -> float.



End SortedByKey.

Section OrderedWaypoints.
Context `{PyMath}.
Variable reg : Registry.
Hypothesis SIGNALS_is_dict : NoDup (keys (SIGNALS reg)).





End OrderedWaypoints.

Section SameStartAndEnd.
Context `{PyMath}.
Variable reg : Registry.
Hypothesis SIGNALS_is_dict : NoDup (keys (SIGNALS reg)).



End SameStartAndEnd.




(* ===================================================================== *)
(** * The pool of the simulation server *)
(* ===================================================================== *)

Section Pool.
Context `{PyMath}.
Variable reg : Registry.
Hypothesis SIGNALS_is_dict : NoDup (keys (SIGNALS reg)).





End Pool.

Section PoolTicking.

Lemma SimulationServer_advance_inside (st : State) (cur prev : coord) :
  nth_error (route_points st) (current_point_index st) = Some cur ->
  nth_error (route_points st) (current_point_index st - 1) = Some prev ->
  SimulationServer.advance st = (Ok (Some (cur, prev)), advanced st cur prev).
Proof.
  intros Hc Hp. unfold SimulationServer.advance. run_handler.
  rewrite (previous_index _ _ _ Hp). cbn [route_points set_previous_location].
  now rewrite (index_Ok _ _ _ Hc).
Qed.

(** X14. The tick of the simulation server over a pool that is not empty
    and whose routes all have points.  It always returns a pair of points:
    inside the active route the point under the cursor with its
    predecessor, the cursor moving by one; with no route, or at the end of
    the route, the first point of a route drawn from the pool, twice, that
    route being installed with the cursor at 1 and an empty passed list. *)
Theorem SimulationServer_tick (pool : list Route) (draw : nat) (st : State) :
  pool <> [] -> Forall (fun r => points r <> []) pool ->
  ((current_point_index st < length (route_points st))%nat ->
   exists cur prev,
     nth_error (route_points st) (current_point_index st) = Some cur /\
     nth_error (route_points st) (current_point_index st - 1) = Some prev /\
     SimulationServer.get_next_simulated_location pool draw st
     = (Ok (Some (cur, prev)), advanced st cur prev)) /\
  ((length (route_points st) <= current_point_index st)%nat ->
   exists r first,
     r ∈ pool /\ nth_error (points r) 0 = Some first /\
     SimulationServer.get_next_simulated_location pool draw st
     = (Ok (Some (first, first)),
        mkState (points r) (waypoints r) 1%nat (Some first)
          (start r) (end_ r) [])).
Proof.
  intros Hne Hpts. split.
  - intros Hin. destruct (in_range_points st Hin) as (cur & prev & Hc & Hp).
    exists cur, prev. split; [exact Hc|]. split; [exact Hp|].
    unfold SimulationServer.get_next_simulated_location.
    unfold bind at 1 2, read. cbn beta iota.
    rewrite (exhausted_false _ _ Hin).
    now apply SimulationServer_advance_inside.
  - intros Hout.
    destruct (SimulationServer_select_resets pool draw st Hne) as (r & Hr & Hsel).
    rewrite Forall_forall in Hpts. pose proof (Hpts r Hr) as Hrp.
    destruct (points r) as [|first rest] eqn:Hpoints; [contradiction|].
    exists r, first. split; [exact Hr|]. split; [now rewrite Hpoints|].
    unfold SimulationServer.get_next_simulated_location.
    unfold bind at 1 2, read. cbn beta iota.
    rewrite (exhausted_true _ _ Hout).
    unfold bind at 1. rewrite Hsel. cbn beta iota.
    rewrite (SimulationServer_advance_inside _ first first);
      [now rewrite Hpoints|reflexivity..].
Qed.

(** X15. With an empty pool the simulation server never gets a route: from
    a state without points the tick returns [(None, None)], [/location]
    answers "error" with status 500, and the state does not change, however
    often it is polled. *)
Theorem SimulationServer_empty_pool `{PyMath} (reg : Registry) (draw : nat)
    (st : State) (n : nat) :
  route_points st = [] ->
  SimulationServer.get_next_simulated_location [] draw st = (Ok None, st) /\
  SimulationServer.get_location reg [] draw
    (after n (SimulationServer.get_location reg [] draw) st)
  = (Ok (Text "error" 500), st).
Proof.
  intros Hrp.
  assert (Htick : SimulationServer.get_next_simulated_location [] draw st
                  = (Ok None, st)).
  { unfold SimulationServer.get_next_simulated_location,
      SimulationServer.select_new_route. run_handler. now rewrite Hrp. }
  assert (Hloc : SimulationServer.get_location reg [] draw st
                 = (Ok (Text "error" 500), st)).
  { unfold SimulationServer.get_location, bind. now rewrite Htick. }
  split; [exact Htick|].
  induction n as [|n IH]; cbn [after]; [exact Hloc|].
  rewrite Hloc. cbn [snd]. exact IH.
Qed.

End PoolTicking.

Section PoolLocation.
Context `{PyMath}.
Variable reg : Registry.
Hypothesis SIGNALS_is_dict : NoDup (keys (SIGNALS reg)).



End PoolLocation.



Lemma ABC_pool_nonempty : ABC_pool <> [].
Proof. vm_compute. discriminate. Qed.

Lemma ABC_pool_has_points : Forall (fun r => points r <> []) ABC_pool.
Proof. vm_compute. repeat constructor; discriminate. Qed.


Lemma SimulationServer_tick_witness :
  ABC_pool <> [] /\ Forall (fun r => points r <> []) ABC_pool /\
  ((current_point_index initial_state < length (route_points initial_state))%nat ->
   exists cur prev,
     nth_error (route_points initial_state) (current_point_index initial_state)
     = Some cur /\
     nth_error (route_points initial_state)
       (current_point_index initial_state - 1) = Some prev /\
     SimulationServer.get_next_simulated_location ABC_pool 3 initial_state
     = (Ok (Some (cur, prev)), advanced initial_state cur prev)) /\
  ((length (route_points initial_state) <= current_point_index initial_state)%nat ->
   exists r first,
     r ∈ ABC_pool /\ nth_error (points r) 0 = Some first /\
     SimulationServer.get_next_simulated_location ABC_pool 3 initial_state
     = (Ok (Some (first, first)),
        mkState (points r) (waypoints r) 1%nat (Some first)
          (start r) (end_ r) [])).
Proof.
  split; [exact ABC_pool_nonempty|]. split; [exact ABC_pool_has_points|].
  exact (SimulationServer_tick ABC_pool 3 initial_state ABC_pool_nonempty
           ABC_pool_has_points).
Defined.

Lemma SimulationServer_empty_pool_witness :
  route_points initial_state = [] /\
  SimulationServer.get_next_simulated_location [] 3 initial_state
  = (Ok None, initial_state) /\
  @SimulationServer.get_location TaylorMath.math ABC_registry [] 3
    (after 5 (@SimulationServer.get_location TaylorMath.math ABC_registry [] 3)
       initial_state)
  = (Ok (Text "error" 500), initial_state).
Proof.
  split; [reflexivity|].
  exact (@SimulationServer_empty_pool TaylorMath.math ABC_registry 3
           initial_state 5 eq_refl).
Defined.


(* ===================================================================== *)
(** * Polling the VSC variant *)
(* ===================================================================== *)

Section VSCPolling.
Context `{PyMath}.
Variable reg : Registry.

Local Abbreviation wps := route_signal_waypoints.




End VSCPolling.

(* ===================================================================== *)
(** * The names of a waypoint sequence *)
(* ===================================================================== *)

Section SequenceNames.
Context `{PyMath}.
Variable reg : Registry.





End SequenceNames.


